(** * gocatch: the diagnostic pipeline of catch.go, embedded and verified

    The development follows catch.go function by function.  Go strings are
    byte sequences ([string]); Go's [int] is a 64-bit two's complement
    integer, kept as a [Z] with the wrap-around written out; a
    [map[string]interface{}] is a [gmap string value]; the order in which
    [range] visits a map is chosen by the Go runtime and is therefore an
    explicit input of every loop over a map. *)

From Stdlib Require Import ZArith String Ascii List Lia DecimalString.
From stdpp Require Import gmap strings list fin_maps sorting.

(** ** Go's strings package, as far as catch.go uses it *)

Module GoStrings.

(** What the standard library does to text that is not plain ASCII is the
    business of its Unicode tables; it is an input of the model. *)
Class Unicode := { unicode_lower : string -> string }.

Definition byte_val (c : ascii) : nat := nat_of_ascii c.

(** [c < utf8.RuneSelf] *)
Definition is_ascii_byte (c : ascii) : bool := (byte_val c <? 128)%nat.

Definition is_upper (c : ascii) : bool :=
  (65 <=? byte_val c)%nat && (byte_val c <=? 90)%nat.

(** [c += 'a' - 'A'] on an upper-case letter *)
Definition lower_byte (c : ascii) : ascii :=
  if is_upper c then ascii_of_nat (byte_val c + 32) else c.

Fixpoint isASCII (s : string) : bool :=
  match s with
  | EmptyString => true
  | String c s' => is_ascii_byte c && isASCII s'
  end.

Fixpoint map_bytes (f : ascii -> ascii) (s : string) : string :=
  match s with
  | EmptyString => EmptyString
  | String c s' => String (f c) (map_bytes f s')
  end.

(** [strings.ToLower]: the ASCII fast path is spelled out, everything else
    is [strings.Map(unicode.ToLower, s)]. *)
Definition ToLower `{Unicode} (s : string) : string :=
  if isASCII s then map_bytes lower_byte s else unicode_lower s.

(** [strings.Contains s substr]: [substr] occurs in [s] as a run of bytes. *)
Fixpoint Contains (s substr : string) : bool :=
  String.prefix substr s ||
  match s with
  | EmptyString => false
  | String _ s' => Contains s' substr
  end.

(** A model of the tables for text known to be ASCII, used to run the
    definitions on concrete inputs. *)
Definition ascii_tables : Unicode := {| unicode_lower := fun s => s |}.

End GoStrings.
Export GoStrings.

(** ** Go's [int] *)

Module GoInt.
Local Open Scope Z_scope.

Definition int_min : Z := - 2 ^ 63.
Definition int_max : Z := 2 ^ 63 - 1.

(** Two's complement wrap-around of a 64-bit result. *)
Definition wrap (z : Z) : Z := (z + 2 ^ 63) mod 2 ^ 64 - 2 ^ 63.

Definition is_int (z : Z) : Prop := int_min <= z <= int_max.

Definition add (a b : Z) : Z := wrap (a + b).
Definition sub (a b : Z) : Z := wrap (a - b).

(** [fmt]'s [%d] *)
Definition itoa (z : Z) : string := NilZero.string_of_int (Z.to_int z).
End GoInt.
Export GoInt.

(** ** Data model *)

(** A non-nil [error] is known to the engine through its [Error()] text only;
    the nil error is [None]. *)
Record error := mkError { Error : string }.

(** A value behind [interface{}].  The kinds catch.go tells apart have a
    constructor of their own; for the kinds whose printing is the business of
    [fmt], the value carries the text [%v] prints for it. *)
#[warnings="-register-all"]
Inductive value : Type :=
  | VNil                                        (* the nil interface *)
  | VString (s : string)
  | VInt (n : Z)
  | VInt64 (n : Z)
  | VFloat64 (shown : string)
  | VFile (shown : string)                      (* *os.File *)
  | VMap (m : gmap string value) (shown : string) (* map[string]interface{} *)
  | VOther (type_name shown : string).          (* reflect.TypeOf(v).Name() *)

Record ErrorConfig := {
  ShowStackTrace : bool;
  ShowSourceCode : bool;
  ShowSuggestions : bool;
  ExitOnError : bool;
  LogToFile : string;
  MaxStackDepth : Z;
  ContextLines : Z;
  UseColors : bool;
  EnableSmartAnalysis : bool;
  EnableStackAnalysis : bool
}.

Definition DefaultConfig : ErrorConfig := {|
  ShowStackTrace := true;
  ShowSourceCode := true;
  ShowSuggestions := true;
  ExitOnError := true;
  LogToFile := "";
  MaxStackDepth := 10;
  ContextLines := 2;
  UseColors := true;
  EnableSmartAnalysis := true;
  EnableStackAnalysis := true
|}.

Record ErrorCatcher := { Config : ErrorConfig }.

Module StackFrame.
Record t := make { File : string; Line : Z; Function : string }.
End StackFrame.

Module SourceLine.
Record t := make { Number : Z; Content : string; IsError : bool }.
End SourceLine.

Module ErrorInfo.
Record t := make {
  Error : error;
  File : string;
  Line : Z;
  Column : Z;
  Function : string;
  Context : gmap string value;
  Stack : list StackFrame.t;
  SourceLines : list SourceLine.t;
  ErrorCode : string;
  Suggestion : string
}.
End ErrorInfo.

Record ContextualCatcher := {
  catcher : ErrorCatcher;
  context : gmap string value
}.

(** ANSI color codes *)
Definition esc : ascii := ascii_of_nat 27.
Definition Reset : string := String esc "[0m".
Definition Bold : string := String esc "[1m".
Definition Red : string := String esc "[31m".
Definition Green : string := String esc "[32m".
Definition Yellow : string := String esc "[33m".
Definition Blue : string := String esc "[34m".
Definition Magenta : string := String esc "[35m".
Definition Cyan : string := String esc "[36m".
Definition White : string := String esc "[37m".
Definition BrightRed : string := String esc "[91m".
Definition Gray : string := String esc "[90m".

(** [getConfig] returns the current configuration or the default. *)
Definition getConfig (e : ErrorCatcher) : ErrorConfig :=
  if (MaxStackDepth (Config e) =? 0)%Z then DefaultConfig else Config e.

(** [Configure] replaces the configuration wholesale. *)
Definition Configure (e : ErrorCatcher) (config : ErrorConfig) : ErrorCatcher :=
  {| Config := config |}.

(** ** What the engine sees of the process it runs in *)

(** A frame as [runtime.Caller] and [runtime.FuncForPC] report it. *)
Record RawFrame := {
  frame_func : option string;     (* [None]: [FuncForPC] returned nil *)
  frame_file : string;
  frame_line : Z
}.

Record Env := {
  (** [os.Open] followed by a [bufio.Scanner]: the texts the successive
      calls of [Scan] yield, or [None] when the file cannot be opened. *)
  sources : string -> option (list string);
  (** The annotations [detectContextFromSource] extracts with go/parser and
      go/ast (best effort, empty on any failure). *)
  source_hints : string -> Z -> gmap string value;
  (** The order in which a [range] loop visits the entries of a map. *)
  range : gmap string value -> list (string * value);
  (** The frame the runtime reports for one of the engine's own functions. *)
  engine_frame : string -> RawFrame
}.

(** [range] visits every entry of the map exactly once, in the order of the
    runtime's choosing. *)
Definition visits (m : gmap string value) (order : list (string * value)) : Prop :=
  order ≡ₚ map_to_list m.

Definition fair_range (env : Env) : Prop := forall m, visits m (range env m).

(** The call stack as [runtime.Caller] indexes it: entry 0 is the function
    that asks; [None] is [ok = false].  catch.go never asks with a negative
    number. *)
Definition runtime_Caller (stack : list RawFrame) (skip : Z) : option RawFrame :=
  if (skip <? 0)%Z then None else stack !! Z.to_nat skip.

Definition enter (env : Env) (fn : string) (stack : list RawFrame) : list RawFrame :=
  engine_frame env fn :: stack.

(** ** Classifier *)

Module Classifier.
Section Classifier.
Context `{Unicode}.

Definition generateSmartErrorCode (err : error) : string :=
  let errStr := ToLower (Error err) in
  (* File system errors *)
  if Contains errStr "no such file" then "FS001"
  else if Contains errStr "permission denied" then "FS002"
  else if Contains errStr "file exists" then "FS003"
  else if Contains errStr "is a directory" then "FS004"
  else if Contains errStr "not a directory" then "FS005"
  (* Network errors *)
  else if Contains errStr "connection refused" then "NET001"
  else if Contains errStr "timeout" then "NET002"
  else if Contains errStr "host not found" then "NET003"
  else if Contains errStr "network unreachable" then "NET004"
  (* Data errors *)
  else if Contains errStr "parse" then "DATA001"
  else if Contains errStr "invalid format" then "DATA002"
  else if Contains errStr "decode" then "DATA003"
  else if Contains errStr "encode" then "DATA004"
  (* Logic errors *)
  else if Contains errStr "index out of range" then "LOGIC001"
  else if Contains errStr "nil pointer" then "LOGIC002"
  else if Contains errStr "assertion failed" then "LOGIC003"
  (* Generic *)
  else "GEN000".

Definition generateSmartSuggestion (err : error) : string :=
  let errStr := ToLower (Error err) in
  if Contains errStr "no such file" then
    "verify the file path exists, check for typos, or create the file first"
  else if Contains errStr "permission denied" then
    "run with appropriate permissions, check file ownership, or modify file permissions"
  else if Contains errStr "connection refused" then
    "ensure the target service is running, check firewall settings, or verify the address and port"
  else if Contains errStr "timeout" then
    "increase timeout duration, check network connectivity, or optimize the operation"
  else if Contains errStr "parse" then
    "validate input format, check for encoding issues, or review the data structure"
  else if Contains errStr "index out of range" then
    "add bounds checking, validate array/slice length, or review loop conditions"
  else if Contains errStr "nil pointer" then
    "add nil checks, initialize variables properly, or review pointer assignments"
  else "check the error context, consult documentation, or add debug logging".

End Classifier.

(** *** The specification's reading: one ordered table, first match wins *)

Definition fs_patterns : list string :=
  ["no such file"; "permission denied"; "file exists"; "is a directory";
   "not a directory"].

Definition code_table : list (string * string) :=
  [("no such file", "FS001"); ("permission denied", "FS002");
   ("file exists", "FS003"); ("is a directory", "FS004");
   ("not a directory", "FS005");
   ("connection refused", "NET001"); ("timeout", "NET002");
   ("host not found", "NET003"); ("network unreachable", "NET004");
   ("parse", "DATA001"); ("invalid format", "DATA002");
   ("decode", "DATA003"); ("encode", "DATA004");
   ("index out of range", "LOGIC001"); ("nil pointer", "LOGIC002");
   ("assertion failed", "LOGIC003")].

Definition suggestion_table : list (string * string) :=
  [("no such file",
    "verify the file path exists, check for typos, or create the file first");
   ("permission denied",
    "run with appropriate permissions, check file ownership, or modify file permissions");
   ("connection refused",
    "ensure the target service is running, check firewall settings, or verify the address and port");
   ("timeout",
    "increase timeout duration, check network connectivity, or optimize the operation");
   ("parse",
    "validate input format, check for encoding issues, or review the data structure");
   ("index out of range",
    "add bounds checking, validate array/slice length, or review loop conditions");
   ("nil pointer",
    "add nil checks, initialize variables properly, or review pointer assignments")].

Definition generic_code : string := "GEN000".
Definition generic_suggestion : string :=
  "check the error context, consult documentation, or add debug logging".

(** The entry of [table] that an ordered scan of [text] stops at. *)
Fixpoint first_match (table : list (string * string)) (text : string)
  : option (string * string) :=
  match table with
  | [] => None
  | (pat, out) :: rest =>
      if Contains text pat then Some (pat, out) else first_match rest text
  end.

Definition answer (dflt : string) (hit : option (string * string)) : string :=
  match hit with Some (_, out) => out | None => dflt end.

End Classifier.
Export Classifier.

(** ** More of the standard library: slicing, paths, formatting *)

Module GoText.

Definition nl : string := String (ascii_of_nat 10) EmptyString.

(** [s[n:]] *)
Fixpoint slice_from (n : nat) (s : string) : string :=
  match n, s with
  | O, _ => s
  | S n', String _ s' => slice_from n' s'
  | S _, EmptyString => EmptyString
  end.

(** [strings.LastIndex s substr], counting from position [i] of the
    original string; [-1] when [substr] does not occur. *)
Fixpoint last_index_from (i : Z) (s substr : string) : Z :=
  match s with
  | EmptyString => if String.prefix substr EmptyString then i else (-1)%Z
  | String _ s' =>
      let later := last_index_from (i + 1)%Z s' substr in
      if (0 <=? later)%Z then later
      else if String.prefix substr s then i else (-1)%Z
  end.

Definition LastIndex (s substr : string) : Z := last_index_from 0%Z s substr.

(** The clean-up every function name goes through:
    [if lastSlash := strings.LastIndex(funcName, "/"); lastSlash >= 0
       { funcName = funcName[lastSlash+1:] }]. *)
Definition strip_package_path (funcName : string) : string :=
  let lastSlash := LastIndex funcName "/" in
  if (0 <=? lastSlash)%Z then slice_from (Z.to_nat (lastSlash + 1)) funcName
  else funcName.

Definition is_slash (c : ascii) : bool := Ascii.eqb c "/"%char.

Definition is_empty (s : string) : bool :=
  match s with EmptyString => true | _ => false end.

(** [filepath.Base], for slash-separated paths: strip trailing slashes,
    keep what follows the last slash. *)
Fixpoint strip_trailing_slashes (path : string) : string :=
  match path with
  | EmptyString => EmptyString
  | String c rest =>
      let rest' := strip_trailing_slashes rest in
      if is_slash c && is_empty rest' then EmptyString else String c rest'
  end.

Fixpoint last_element (path : string) : string :=
  match path with
  | EmptyString => EmptyString
  | String c rest =>
      if Contains rest "/" then last_element rest
      else if is_slash c then rest else path
  end.

Definition Base (path : string) : string :=
  if is_empty path then "."
  else
    let path := last_element (strip_trailing_slashes path) in
    if is_empty path then "/" else path.

(** [strings.Repeat] *)
Fixpoint Repeat (s : string) (count : nat) : string :=
  match count with
  | O => EmptyString
  | S n => s +:+ Repeat s n
  end.

(** [fmt]'s [%*d] and [%2d]: right-aligned in a field of [width]. *)
Definition pad_left (width : nat) (s : string) : string :=
  Repeat " " (width - String.length s) +:+ s.

(** [strings.ReplaceAll s old new] for a non-empty [old]: the
    non-overlapping occurrences of [old], leftmost first, are replaced.
    [skip] counts the bytes of a matched occurrence still to be passed.
    catch.go only calls it with one of the eleven colour codes as [old];
    for an empty [old] the text is returned as it is. *)
Fixpoint replace_from (old new : string) (skip : nat) (s : string) : string :=
  match s with
  | EmptyString => EmptyString
  | String c s' =>
      match skip with
      | S k => replace_from old new k s'
      | O =>
          if String.prefix old s
          then new +:+ replace_from old new (String.length old - 1) s'
          else String c (replace_from old new 0 s')
      end
  end.

Definition ReplaceAll (s old new : string) : string :=
  if is_empty old then s else replace_from old new 0 s.

(** [fmt]'s [%v] *)
Definition show (v : value) : string :=
  match v with
  | VNil => "<nil>"
  | VString s => s
  | VInt n | VInt64 n => itoa n
  | VFloat64 shown | VFile shown | VMap _ shown | VOther _ shown => shown
  end.

End GoText.
Export GoText.

(** ** Context inference *)

Module ContextInference.
Section ContextInference.
Context `{Unicode} (env : Env) (Catch : ErrorCatcher).

(** [inferContextKey] tries to guess appropriate key names. *)
Definition inferContextKey (v : value) : string :=
  match v with
  | VString s =>
      if Contains s "/" || Contains s "." then "path"
      else if (String.length s <? 20)%nat then "name"
      else "description"
  | VFile _ => "file"
  | VNil => "context"
  | VInt _ => ToLower "int"
  | VInt64 _ => ToLower "int64"
  | VFloat64 _ => ToLower "float64"
  | VMap _ _ => ToLower ""
  | VOther type_name _ => ToLower type_name
  end.

(** One turn of the loop [for i, item := range context] of
    [parseProvidedContext]. *)
Definition parse_item (context : list value) (i : nat) (item : value)
    (ctx : gmap string value) : gmap string value :=
  match item with
  | VString v =>
      if ((i + 1 <? length context)%nat && (i mod 2 =? 0)%nat)%bool then
        (* String followed by value = key-value pair *)
        match context !! (i + 1)%nat with
        | Some next => <[v := next]> ctx
        | None => ctx
        end
      else
        (* Standalone string = operation or description *)
        if Contains v "/" || Contains v "." then <["path" := item]> ctx
        else <["operation" := item]> ctx
  | VInt _ | VInt64 _ | VFloat64 _ =>
      <["value_" +:+ itoa (Z.of_nat i) := item]> ctx
  | _ =>
      (* Try to infer meaning from type *)
      <[inferContextKey item := item]> ctx
  end.

Fixpoint parse_items (context : list value) (i : nat) (rest : list value)
    (ctx : gmap string value) : gmap string value :=
  match rest with
  | [] => ctx
  | item :: rest' =>
      parse_items context (S i) rest' (parse_item context i item ctx)
  end.

(** [for k, v := range m { ctx[k] = v }] over the entries in the order
    the runtime visits them. *)
Definition copy_entries (order : list (string * value))
    (ctx : gmap string value) : gmap string value :=
  foldl (fun acc kv => <[kv.1 := kv.2]> acc) ctx order.

(** [parseProvidedContext] handles various context input formats. *)
Definition parseProvidedContext (ctx : gmap string value)
    (context : list value) : gmap string value :=
  match context with
  | [] => ctx
  | [VMap m _] => copy_entries (range env m) ctx
  | _ => parse_items context 0 context ctx
  end.

(** [for k, v := range inferred { if _, exists := ctx[k]; !exists
      { ctx[k] = v } }] *)
Definition fill_absent (order : list (string * value))
    (ctx : gmap string value) : gmap string value :=
  foldl (fun acc kv =>
           match acc !! kv.1 with
           | Some _ => acc        (* Don't override explicit context *)
           | None => <[kv.1 := kv.2]> acc
           end) ctx order.

(** [detectContextFromStack]: the first frame among [runtime.Caller(3)],
    ..., [runtime.Caller(7)] whose function is known decides. *)
Definition classify_caller (lower : string) (ctx : gmap string value)
  : gmap string value :=
  if Contains lower "read" then <["operation_type" := VString "read"]> ctx
  else if Contains lower "write" then <["operation_type" := VString "write"]> ctx
  else if Contains lower "open" then <["operation_type" := VString "open"]> ctx
  else if Contains lower "process" then <["operation_type" := VString "process"]> ctx
  else if Contains lower "handle" then <["operation_type" := VString "handle"]> ctx
  else ctx.

Fixpoint stack_scan (stack : list RawFrame) (i : Z) (turns : nat)
    (ctx : gmap string value) : gmap string value :=
  match turns with
  | O => ctx
  | S turns' =>
      match runtime_Caller stack i with
      | None => ctx
      | Some fr =>
          match frame_func fr with
          | Some name =>
              let funcName := strip_package_path name in
              let ctx := classify_caller (ToLower funcName) ctx in
              let ctx := <["caller_function" := VString funcName]> ctx in
              <["caller_location" :=
                  VString (Base (frame_file fr) +:+ ":" +:+ itoa (frame_line fr))]> ctx
          | None => stack_scan stack (i + 1)%Z turns' ctx
          end
      end
  end.

Definition detectContextFromStack (stack : list RawFrame) : gmap string value :=
  stack_scan stack 3%Z 5 ∅.

(** [detectContextFromSource] needs go/parser; its result is the
    environment's. *)
Definition detectContextFromSource (filename : string) (errorLine : Z)
  : gmap string value :=
  source_hints env filename errorLine.

(** [buildSmartContext] auto-detects context from various sources.
    [stack] is the call stack as seen from inside [buildSmartContext]. *)
Definition buildSmartContext (stack : list RawFrame) (file : string)
    (line : Z) (context : list value) : gmap string value :=
  (* 1. Parse provided context *)
  let ctx := parseProvidedContext ∅ context in
  (* 2. Auto-detect from source code *)
  let ctx :=
    if EnableSmartAnalysis (getConfig Catch) then
      let sourceCtx := detectContextFromSource file line in
      fill_absent (range env sourceCtx) ctx
    else ctx in
  (* 3. Auto-detect from stack trace *)
  if EnableStackAnalysis (getConfig Catch) then
    let stackCtx :=
      detectContextFromStack (enter env "detectContextFromStack" stack) in
    fill_absent (range env stackCtx) ctx
  else ctx.

End ContextInference.
End ContextInference.
Export ContextInference.

(** ** Source window *)

Module SourceContextLoader.
Local Open Scope Z_scope.

(** The body of [for scanner.Scan() { ... }]: [texts] are the lines still
    to be scanned, [currentLine] the number of the last line scanned. *)
Fixpoint scan_loop (errorLine startLine endLine : Z) (texts : list string)
    (currentLine : Z) (lines : list SourceLine.t) : list SourceLine.t :=
  match texts with
  | [] => lines
  | text :: rest =>
      let currentLine := add currentLine 1 in
      let lines :=
        if (startLine <=? currentLine) && (currentLine <=? endLine) then
          lines ++ [SourceLine.make currentLine text (currentLine =? errorLine)]
        else lines in
      if endLine <? currentLine then lines
      else scan_loop errorLine startLine endLine rest currentLine lines
  end.

(** [loadSourceContext] reads source code around the error line. *)
Definition loadSourceContext (env : Env) (filename : string)
    (errorLine contextLines : Z) : list SourceLine.t :=
  match sources env filename with
  | None => []
  | Some texts =>
      let startLine := sub errorLine contextLines in
      let endLine := add errorLine contextLines in
      let startLine := if startLine <? 1 then 1 else startLine in
      scan_loop errorLine startLine endLine texts 0 []
  end.

(** The specification's reading of the window: the numbered lines of the
    file, filtered by [max(1, center - radius) <= number <= center + radius]. *)
Definition numbered (texts : list string) : list (Z * string) :=
  zip (Z.of_nat <$> seq 1 (length texts)) texts.

Definition in_window (centerLine radius : Z) (entry : Z * string) : bool :=
  (Z.max 1 (centerLine - radius) <=? entry.1) && (entry.1 <=? centerLine + radius).

Definition window_of (texts : list string) (centerLine radius : Z)
  : list SourceLine.t :=
  (fun entry => SourceLine.make entry.1 entry.2 (entry.1 =? centerLine))
    <$> List.filter (in_window centerLine radius) (numbered texts).

End SourceContextLoader.
Export SourceContextLoader.

(** ** Stack capture *)

Module StackTracer.
Local Open Scope Z_scope.

(** [for i := skip + 1; i < skip+config.MaxStackDepth; i++]: [fuel] bounds
    the number of turns by the number of frames there are, since the loop
    breaks at the first [i] with no frame. *)
Fixpoint trace_loop (stack : list RawFrame) (bound : Z) (fuel : nat) (i : Z)
    (acc : list StackFrame.t) : list StackFrame.t :=
  match fuel with
  | O => acc
  | S fuel' =>
      if i <? bound then
        match runtime_Caller stack i with
        | None => acc
        | Some fr =>
            let funcName :=
              match frame_func fr with
              | Some name => strip_package_path name
              | None => EmptyString
              end in
            trace_loop stack bound fuel' (add i 1)
              (acc ++ [StackFrame.make (frame_file fr) (frame_line fr) funcName])
        end
      else acc
  end.

(** [buildStackTrace] creates a stack trace.  [stack] is the call stack as
    seen from inside [buildStackTrace]. *)
Definition buildStackTrace (e : ErrorCatcher) (skip : Z)
    (stack : list RawFrame) : list StackFrame.t :=
  let config := getConfig e in
  trace_loop stack (add skip (MaxStackDepth config)) (S (length stack))
    (add skip 1) [].

(** The [StackFrame] the loop appends for a frame of the runtime. *)
Definition frame_of (fr : RawFrame) : StackFrame.t :=
  StackFrame.make (frame_file fr) (frame_line fr)
    match frame_func fr with
    | Some name => strip_package_path name
    | None => EmptyString
    end.

End StackTracer.
Export StackTracer.

(** ** Rendering and dispatch *)

Module DiagnosticRenderer.

(** *** The text [handleError] builds, block by block *)

Definition header_block (config : ErrorConfig) (info : ErrorInfo.t) : string :=
  let msg := Error (ErrorInfo.Error info) in
  if UseColors config then
    BrightRed +:+ "error[" +:+ Bold +:+ ErrorInfo.ErrorCode info +:+
    (Reset +:+ BrightRed) +:+ "]: " +:+ Bold +:+ msg +:+ Reset +:+ nl
  else
    "error[" +:+ ErrorInfo.ErrorCode info +:+ "]: " +:+ msg +:+ nl.

Definition location_block (config : ErrorConfig) (info : ErrorInfo.t) : string :=
  let filename := Base (ErrorInfo.File info) in
  if UseColors config then
    " " +:+ (Blue +:+ Bold) +:+ "-->" +:+ Reset +:+ " " +:+ filename +:+ ":" +:+
    itoa (ErrorInfo.Line info) +:+ nl
  else
    " --> " +:+ filename +:+ ":" +:+ itoa (ErrorInfo.Line info) +:+ nl.

Definition source_line_text (config : ErrorConfig) (padding : nat)
    (sourceLine : SourceLine.t) : string :=
  let lineNumStr := pad_left padding (itoa (SourceLine.Number sourceLine)) in
  if SourceLine.IsError sourceLine then
    (if UseColors config then
       (Red +:+ Bold) +:+ lineNumStr +:+ Reset +:+ " |" +:+ Reset +:+ " " +:+
       SourceLine.Content sourceLine +:+ nl
     else
       lineNumStr +:+ " | " +:+ SourceLine.Content sourceLine +:+ nl)
    +:+
    (* Add error pointer *)
    (let spaces := Repeat " " padding in
     if UseColors config then
       spaces +:+ " |" +:+ Reset +:+ " " +:+ (Red +:+ Bold) +:+ Reset +:+ "^" +:+ nl
     else
       spaces +:+ " | ^" +:+ nl)
  else
    if UseColors config then
      Blue +:+ lineNumStr +:+ Reset +:+ " |" +:+ Reset +:+ " " +:+ Gray +:+
      SourceLine.Content sourceLine +:+ Reset +:+ nl
    else
      lineNumStr +:+ " | " +:+ SourceLine.Content sourceLine +:+ nl.

Fixpoint write_each {A} (f : A -> string) (l : list A) : string :=
  match l with
  | [] => EmptyString
  | x :: l' => f x +:+ write_each f l'
  end.

Definition source_block (config : ErrorConfig) (info : ErrorInfo.t) : string :=
  match last (ErrorInfo.SourceLines info) with
  | Some lastLine =>
      if ShowSourceCode config then
        (* Calculate padding for line numbers *)
        let maxLineNum := SourceLine.Number lastLine in
        let padding := String.length (itoa maxLineNum) in
        "  |" +:+ nl +:+
        write_each (source_line_text config padding) (ErrorInfo.SourceLines info) +:+
        "  |" +:+ nl
      else EmptyString
  | None => EmptyString
  end.

Definition context_entry_text (config : ErrorConfig) (kv : string * value) : string :=
  if UseColors config then
    "    " +:+ Cyan +:+ kv.1 +:+ Reset +:+ ": " +:+ show kv.2 +:+ nl
  else
    "    " +:+ kv.1 +:+ ": " +:+ show kv.2 +:+ nl.

(** [order]: the entries of [info.Context] as [range] visits them. *)
Definition context_block (config : ErrorConfig) (info : ErrorInfo.t)
    (order : list (string * value)) : string :=
  if (0 <? size (ErrorInfo.Context info))%nat then
    (if UseColors config then
       "  " +:+ (Blue +:+ Bold) +:+ "=" +:+ Reset +:+ " " +:+ (Yellow +:+ Bold) +:+
       "context:" +:+ Reset +:+ nl
     else
       "  = context:" +:+ nl)
    +:+ write_each (context_entry_text config) order +:+ nl
  else EmptyString.

Definition suggestion_block (config : ErrorConfig) (info : ErrorInfo.t) : string :=
  if ShowSuggestions config && negb (is_empty (ErrorInfo.Suggestion info)) then
    (if UseColors config then
       "  " +:+ (Blue +:+ Bold) +:+ "=" +:+ Reset +:+ " " +:+ (Green +:+ Bold) +:+
       "help:" +:+ Reset +:+ " " +:+ ErrorInfo.Suggestion info +:+ nl
     else
       "  = help: " +:+ ErrorInfo.Suggestion info +:+ nl)
    +:+ nl
  else EmptyString.

Definition frame_text (config : ErrorConfig) (i : nat) (frame : StackFrame.t) : string :=
  let frameFile := Base (StackFrame.File frame) in
  let index := pad_left 2 (itoa (Z.of_nat i)) in
  if UseColors config then
    "   " +:+ Gray +:+ index +:+ ":" +:+ Reset +:+ " " +:+ Bold +:+
    StackFrame.Function frame +:+ Reset +:+ nl +:+ "          at " +:+ Gray +:+
    frameFile +:+ ":" +:+ itoa (StackFrame.Line frame) +:+ Reset +:+ nl
  else
    "   " +:+ index +:+ ": " +:+ StackFrame.Function frame +:+ nl +:+
    "          at " +:+ frameFile +:+ ":" +:+ itoa (StackFrame.Line frame) +:+ nl.

Fixpoint frames_text (config : ErrorConfig) (i : nat) (frames : list StackFrame.t)
  : string :=
  match frames with
  | [] => EmptyString
  | frame :: rest => frame_text config i frame +:+ frames_text config (S i) rest
  end.

Definition stack_block (config : ErrorConfig) (info : ErrorInfo.t) : string :=
  if ShowStackTrace config && (0 <? length (ErrorInfo.Stack info))%nat then
    (if UseColors config then
       "  " +:+ (Blue +:+ Bold) +:+ "=" +:+ Reset +:+ " " +:+ (Yellow +:+ Bold) +:+
       "stack backtrace:" +:+ Reset +:+ nl
     else
       "  = stack backtrace:" +:+ nl)
    +:+ frames_text config 0 (ErrorInfo.Stack info) +:+ nl
  else EmptyString.

(** [output.String()] at the end of [handleError]. *)
Definition render (config : ErrorConfig) (info : ErrorInfo.t)
    (order : list (string * value)) : string :=
  header_block config info +:+ location_block config info +:+
  source_block config info +:+ context_block config info order +:+
  suggestion_block config info +:+ stack_block config info.

(** The texts one record can come out as: one for every order in which
    the runtime may visit the context map. *)
Definition renders (config : ErrorConfig) (info : ErrorInfo.t) (out : string) : Prop :=
  exists order, visits (ErrorInfo.Context info) order /\ out = render config info order.

(** The text of a report before the context lines: header, location and
    source blocks, and the heading of the context block when the record has
    a context. *)
Definition report_head (config : ErrorConfig) (info : ErrorInfo.t) : string :=
  header_block config info +:+ location_block config info +:+
  source_block config info +:+
  (if (0 <? size (ErrorInfo.Context info))%nat then
     (if UseColors config then
        "  " +:+ (Blue +:+ Bold) +:+ "=" +:+ Reset +:+ " " +:+ (Yellow +:+ Bold) +:+
        "context:" +:+ Reset +:+ nl
      else
        "  = context:" +:+ nl)
   else EmptyString).

(** The text of a report after the context lines: the blank line that ends
    the context block, then the suggestion and stack blocks. *)
Definition report_tail (config : ErrorConfig) (info : ErrorInfo.t) : string :=
  (if (0 <? size (ErrorInfo.Context info))%nat then nl else EmptyString) +:+
  suggestion_block config info +:+ stack_block config info.

(** *** Dispatch *)

Definition escapes : list string :=
  [Reset; Bold; Red; Green; Yellow; Blue; Magenta; Cyan; White; BrightRed; Gray].

(** [stripANSI] removes ANSI color codes from text. *)
Definition stripANSI (text : string) : string :=
  foldl (fun result escape => ReplaceAll result escape EmptyString) text escapes.

(** The world outside the process. *)
Record World := {
  stderr : string;                 (* everything written to the console *)
  files : gmap string string;      (* the files the log writer appends to *)
  locked : string -> bool          (* [os.OpenFile] fails for this path *)
}.

(** A call either returns to its caller or ends the process. *)
Inductive outcome (A : Type) : Type :=
  | Returned (w : World) (a : A)
  | Exited (w : World) (status : Z).
Arguments Returned {A} w a.
Arguments Exited {A} w status.

Definition bind {A B} (m : outcome A) (k : World -> A -> outcome B) : outcome B :=
  match m with
  | Returned w a => k w a
  | Exited w status => Exited w status
  end.

Definition world_of {A} (m : outcome A) : World :=
  match m with Returned w _ => w | Exited w _ => w end.

(** [logToFile] writes error to a log file (without colors). *)
Definition logToFile (filename message : string) (w : World) : World :=
  (* Strip ANSI colors for file logging *)
  let cleanMessage := stripANSI message in
  if locked w filename then w   (* Silently fail *)
  else
    {| stderr := stderr w;
       files := <[filename := default EmptyString (files w !! filename) +:+ cleanMessage]>
                  (files w);
       locked := locked w |}.

(** [handleError] processes and outputs the error in Rust style. *)
Definition handleError (env : Env) (e : ErrorCatcher) (info : ErrorInfo.t)
    (w : World) : outcome unit :=
  let config := getConfig e in
  let message := render config info (range env (ErrorInfo.Context info)) in
  (* Output to stderr *)
  let w := {| stderr := stderr w +:+ message; files := files w; locked := locked w |} in
  (* Log to file if configured *)
  let w := if is_empty (LogToFile config) then w
           else logToFile (LogToFile config) message w in
  (* Exit if configured *)
  if ExitOnError config then Exited w 1 else Returned w tt.

End DiagnosticRenderer.
Export DiagnosticRenderer.

(** ** Entry points *)

Module Entry.
Section Entry.
Context `{Unicode} (env : Env).
Local Open Scope Z_scope.

(** The caller information both builders start with: file, line and
    cleaned function name of [runtime.Caller(depth)]. *)
Definition caller_site (stack : list RawFrame) (depth : Z) : string * Z * string :=
  match runtime_Caller stack depth with
  | Some fr =>
      (frame_file fr, frame_line fr,
       match frame_func fr with
       | Some name => strip_package_path name
       | None => EmptyString
       end)
  | None => ("unknown"%string, 0, EmptyString)
  end.

(** [buildErrorInfo] creates detailed error information with source code
    context.  [stack] is the call stack as seen from inside it. *)
Definition buildErrorInfo (e : ErrorCatcher) (err : error) (skip : Z)
    (stack : list RawFrame) : ErrorInfo.t :=
  let config := getConfig e in
  let '(file, line, funcName) := caller_site stack (add skip 1) in
  {| ErrorInfo.Error := err;
     ErrorInfo.File := file;
     ErrorInfo.Line := line;
     ErrorInfo.Column := 0;
     ErrorInfo.Function := funcName;
     ErrorInfo.Context := ∅;
     ErrorInfo.ErrorCode := generateSmartErrorCode err;
     ErrorInfo.Suggestion := generateSmartSuggestion err;
     ErrorInfo.SourceLines :=
       if ShowSourceCode config
       then loadSourceContext env file line (ContextLines config) else [];
     ErrorInfo.Stack :=
       if ShowStackTrace config
       then buildStackTrace e (add skip 1) (enter env "buildStackTrace" stack)
       else [] |}.

(** [buildSmartErrorInfo] creates comprehensive error info with
    auto-detection; [Catch] is the global catcher. *)
Definition buildSmartErrorInfo (Catch : ErrorCatcher) (err : error)
    (context : list value) (stack : list RawFrame) : ErrorInfo.t :=
  let config := getConfig Catch in
  let '(file, line, funcName) := caller_site stack 2 in
  {| ErrorInfo.Error := err;
     ErrorInfo.File := file;
     ErrorInfo.Line := line;
     ErrorInfo.Column := 0;
     ErrorInfo.Function := funcName;
     ErrorInfo.Context :=
       buildSmartContext env Catch (enter env "buildSmartContext" stack)
         file line context;
     ErrorInfo.ErrorCode := generateSmartErrorCode err;
     ErrorInfo.Suggestion := generateSmartSuggestion err;
     ErrorInfo.SourceLines :=
       if ShowSourceCode config
       then loadSourceContext env file line (ContextLines config) else [];
     ErrorInfo.Stack :=
       if ShowStackTrace config
       then buildStackTrace Catch 1 (enter env "buildStackTrace" stack)
       else [] |}.

Definition with_context (info : ErrorInfo.t) (ctx : gmap string value) : ErrorInfo.t :=
  {| ErrorInfo.Error := ErrorInfo.Error info;
     ErrorInfo.File := ErrorInfo.File info;
     ErrorInfo.Line := ErrorInfo.Line info;
     ErrorInfo.Column := ErrorInfo.Column info;
     ErrorInfo.Function := ErrorInfo.Function info;
     ErrorInfo.Context := ctx;
     ErrorInfo.ErrorCode := ErrorInfo.ErrorCode info;
     ErrorInfo.Suggestion := ErrorInfo.Suggestion info;
     ErrorInfo.SourceLines := ErrorInfo.SourceLines info;
     ErrorInfo.Stack := ErrorInfo.Stack info |}.

(** [Err] is the main auto-detecting error handler.  [stack] is the call
    stack as seen from inside [Err]; the result is the error it returns. *)
Definition Err (Catch : ErrorCatcher) (err : option error) (context : list value)
    (stack : list RawFrame) (w : World) : outcome (option error) :=
  match err with
  | None => Returned w None
  | Some failure =>
      (* Build smart context *)
      let info :=
        buildSmartErrorInfo Catch failure context
          (enter env "buildSmartErrorInfo" stack) in
      bind (handleError env Catch info w) (fun w _ => Returned w err)
  end.

(** [ErrorCatcher.Set] assigns an error value and handles it if not nil. *)
Definition ErrorCatcher_Set (e : ErrorCatcher) (err : option error)
    (stack : list RawFrame) (w : World) : outcome (option error) :=
  match err with
  | Some failure =>
      let info := buildErrorInfo e failure 1 (enter env "buildErrorInfo" stack) in
      bind (handleError env e info w) (fun w _ => Returned w err)
  | None => Returned w err
  end.

(** [ErrorCatcher.WithContext] adds contextual information to error
    handling. *)
Definition ErrorCatcher_WithContext (e : ErrorCatcher) (key : string)
    (v : value) : ContextualCatcher :=
  {| catcher := e; context := {[ key := v ]} |}.

(** [ContextualCatcher.WithContext] adds more context to the chain. *)
Definition ContextualCatcher_WithContext (c : ContextualCatcher) (key : string)
    (v : value) : ContextualCatcher :=
  {| catcher := catcher c; context := <[key := v]> (context c) |}.

(** [ContextualCatcher.Set] handles error with accumulated context. *)
Definition ContextualCatcher_Set (c : ContextualCatcher) (err : option error)
    (stack : list RawFrame) (w : World) : outcome (option error) :=
  match err with
  | Some failure =>
      let info :=
        buildErrorInfo (catcher c) failure 1 (enter env "buildErrorInfo" stack) in
      let info := with_context info (context c) in
      bind (handleError env (catcher c) info w) (fun w _ => Returned w err)
  | None => Returned w err
  end.

(** A fluent chain [e.WithContext(k0, v0).WithContext(k1, v1)...]. *)
Definition chain (e : ErrorCatcher) (first : string * value)
    (more : list (string * value)) : ContextualCatcher :=
  foldl (fun c kv => ContextualCatcher_WithContext c kv.1 kv.2)
    (ErrorCatcher_WithContext e first.1 first.2) more.

End Entry.
End Entry.
Export Entry.

(** ** The other entry points *)

Module Convenience.

(** What [fmt.Errorf] prints is the business of [fmt]: the text of
    [fmt.Errorf(format+": %w", append(args, err)...)] is an input of the
    model. *)
Class Fmt := { wrap_text : string -> list value -> error -> string }.

(** What [recover()] hands to [Recover]'s closure, by the cases of its type
    switch. *)
Inductive panic_value : Type :=
  | PanicError (e : error)
  | PanicString (s : string)
  | PanicOther (shown : string).       (* the text [%v] prints *)

(** [Must] either hands back its value or panics with a message. *)
Inductive must_outcome (T : Type) : Type :=
  | MustValue (val : T)
  | MustPanic (message : string).
Arguments MustValue {T} val.
Arguments MustPanic {T} message.

Section Convenience.
Context `{Unicode} `{Fmt} (env : Env) (Catch : ErrorCatcher).
Local Open Scope Z_scope.

(** [abs] returns absolute value of an integer. *)
Definition abs (x : Z) : Z := if x <? 0 then wrap (- x) else x.

(** [E] is the shortest possible function name for error handling. *)
Definition E (err : option error) (stack : list RawFrame) (w : World) : outcome unit :=
  match err with
  | Some failure =>
      let info := buildErrorInfo env Catch failure 1 (enter env "buildErrorInfo" stack) in
      handleError env Catch info w
  | None => Returned w tt
  end.

(** [Wrap] creates a new error with additional context without handling it. *)
Definition Wrap (err : option error) (format : string) (args : list value)
  : option error :=
  match err with
  | None => None
  | Some failure => Some (mkError (wrap_text format args failure))
  end.

(** [Must] panics if err is not nil with enhanced error info. *)
Definition Must {T} (val : T) (err : option error) (stack : list RawFrame)
  : must_outcome T :=
  match err with
  | Some failure =>
      let info := buildErrorInfo env Catch failure 1 (enter env "buildErrorInfo" stack) in
      MustPanic
        (("Must failed in " +:+ Base (ErrorInfo.File info) +:+ ":" +:+
          itoa (ErrorInfo.Line info)) +:+
         (if is_empty (ErrorInfo.Function info) then EmptyString
          else " (" +:+ ErrorInfo.Function info +:+ ")") +:+
         (": " +:+ Error failure))
  | None => MustValue val
  end.

(** The closure [Try] returns, applied to [errp]: [None] is the nil
    pointer, [Some slot] a pointer to an error variable holding [slot]. *)
Definition Try (errp : option (option error)) (stack : list RawFrame) (w : World)
  : outcome unit :=
  match errp with
  | Some (Some failure) =>
      (* Skip 2 levels for defer *)
      let info := buildErrorInfo env Catch failure 2 (enter env "buildErrorInfo" stack) in
      handleError env Catch info w
  | _ => Returned w tt
  end.

(** [Check] is a convenient function that returns true if error is nil. *)
Definition Check (err : option error) (stack : list RawFrame) (w : World)
  : outcome bool :=
  match err with
  | Some failure =>
      let info := buildErrorInfo env Catch failure 1 (enter env "buildErrorInfo" stack) in
      bind (handleError env Catch info w) (fun w _ => Returned w false)
  | None => Returned w true
  end.

(** The error [Recover]'s closure makes of a recovered panic. *)
Definition panic_error (r : panic_value) : error :=
  match r with
  | PanicError v => v
  | PanicString v => mkError ("panic: " +:+ v)
  | PanicOther shown => mkError ("panic: " +:+ shown)
  end.

(** The closure [Recover] returns, applied to [errp] while [recover()]
    yields [recovered] ([None]: there is no panic).  The result is what the
    error variable behind [errp] holds afterwards. *)
Definition Recover (recovered : option panic_value) (errp : option (option error))
    (stack : list RawFrame) (w : World) : outcome (option (option error)) :=
  match recovered with
  | Some r =>
      let err := panic_error r in
      match errp with
      | Some _ => Returned w (Some (Some err))
      | None =>
          let info := buildErrorInfo env Catch err 2 (enter env "buildErrorInfo" stack) in
          bind (handleError env Catch info w) (fun w _ => Returned w None)
      end
  | None => Returned w errp
  end.

(** [Errf] formats and handles error with context. *)
Definition Errf (err : option error) (format : string) (args : list value)
    (stack : list RawFrame) (w : World) : outcome (option error) :=
  match err with
  | None => Returned w None
  | Some failure =>
      let wrappedErr := mkError (wrap_text format args failure) in
      Err env Catch (Some wrappedErr) args (enter env "Err" stack) w
  end.

(** [ErrMust] panics with smart error info if err is not nil. *)
Definition ErrMust {T} (val : T) (err : option error) (stack : list RawFrame)
    (w : World) : outcome T :=
  match err with
  | Some _ =>
      (* This will exit due to default config *)
      bind (Err env Catch err [] (enter env "Err" stack) w) (fun w _ => Returned w val)
  | None => Returned w val
  end.

(** [ErrCheck] returns false and handles error if not nil. *)
Definition ErrCheck (err : option error) (stack : list RawFrame) (w : World)
  : outcome bool :=
  match err with
  | Some _ =>
      bind (Err env Catch err [] (enter env "Err" stack) w) (fun w _ => Returned w false)
  | None => Returned w true
  end.

End Convenience.
End Convenience.
Export Convenience.

(** ** Styling: what it means for a text to be another one with colour codes added *)

Module Styling.

Definition is_escape (tok : string) : Prop := In tok escapes.

(** No byte of the text is the escape character. *)
Fixpoint esc_free (s : string) : bool :=
  match s with
  | EmptyString => true
  | String c s' => negb (Ascii.eqb c esc) && esc_free s'
  end.

(** [styled allowed c p]: [c] is the escape-free text [p] with codes from
    [allowed] inserted between its bytes. *)
Inductive styled (allowed : string -> Prop) : string -> string -> Prop :=
  | styled_end : styled allowed "" ""
  | styled_token tok c p :
      allowed tok -> styled allowed c p -> styled allowed (tok +:+ c) p
  | styled_byte ch c p :
      ch <> esc -> styled allowed c p -> styled allowed (String ch c) (String ch p).

(** The configuration with the colour switch set to [b]. *)
Definition with_colors (b : bool) (config : ErrorConfig) : ErrorConfig :=
  {| ShowStackTrace := ShowStackTrace config;
     ShowSourceCode := ShowSourceCode config;
     ShowSuggestions := ShowSuggestions config;
     ExitOnError := ExitOnError config;
     LogToFile := LogToFile config;
     MaxStackDepth := MaxStackDepth config;
     ContextLines := ContextLines config;
     UseColors := b;
     EnableSmartAnalysis := EnableSmartAnalysis config;
     EnableStackAnalysis := EnableStackAnalysis config |}.

(** A record none of whose texts (message, code, file names, source lines,
    context keys and printed values, suggestion, function names) holds an
    escape character. *)
Definition unstyled (info : ErrorInfo.t) : Prop :=
  esc_free (Error (ErrorInfo.Error info)) = true
  /\ esc_free (ErrorInfo.ErrorCode info) = true
  /\ esc_free (ErrorInfo.File info) = true
  /\ esc_free (ErrorInfo.Suggestion info) = true
  /\ Forall (fun l => esc_free (SourceLine.Content l) = true) (ErrorInfo.SourceLines info)
  /\ Forall (fun f => esc_free (StackFrame.Function f) = true /\
                      esc_free (StackFrame.File f) = true) (ErrorInfo.Stack info)
  /\ map_Forall (fun k v => esc_free k = true /\ esc_free (show v) = true)
       (ErrorInfo.Context info).

End Styling.
Export Styling.

(** ** Concrete scenarios the properties below are run on *)

Module Scenarios.

Definition engine_at (fn : string) : RawFrame :=
  {| frame_func := Some ("github.com/00msjr/catch." +:+ fn);
     frame_file := "/go/src/catch/catch.go";
     frame_line := 1 |}.

(** An environment with the given readable files and source hints, in
    which [range] visits a map in the order of [map_to_list]. *)
Definition scenario (files : string -> option (list string))
    (hints : string -> Z -> gmap string value) : Env :=
  {| sources := files;
     source_hints := hints;
     range := map_to_list;
     engine_frame := engine_at |}.

Definition no_files : string -> option (list string) := fun _ => None.
Definition no_hints : string -> Z -> gmap string value := fun _ _ => ∅.

(** Source inference that proposes a "user_id" of its own. *)
Definition env_user_id : Env :=
  scenario no_files (fun _ _ => {[ "user_id" := VInt 7 ]}).

(** A process that can read main.go and nothing else. *)
Definition only_main (texts : list string) : string -> option (list string) :=
  fun filename => if String.eqb filename "main.go" then Some texts else None.

Definition hundred_lines : list string :=
  (fun n => "line " +:+ itoa (Z.of_nat n)) <$> seq 1 100.

Definition env_hundred : Env := scenario (only_main hundred_lines) no_hints.
Definition env_one_line : Env := scenario (only_main ["package main"]) no_hints.

(** A call stack of six frames, each with a known function. *)
Definition user_frame (fn : string) (line : Z) : RawFrame :=
  {| frame_func := Some ("example.com/app/" +:+ fn);
     frame_file := "/home/dev/app/main.go";
     frame_line := line |}.

Definition six_frames : list RawFrame :=
  [engine_at "buildStackTrace"; engine_at "buildErrorInfo";
   user_frame "store.Load" 40; user_frame "api.Handle" 77;
   user_frame "main.serve" 18; user_frame "main.main" 9].

(** A catcher configured for a stack depth of three. *)
Definition depth_three : ErrorCatcher :=
  {| Config := {| ShowStackTrace := true; ShowSourceCode := false;
                  ShowSuggestions := true; ExitOnError := false;
                  LogToFile := ""; MaxStackDepth := 3; ContextLines := 2;
                  UseColors := false; EnableSmartAnalysis := false;
                  EnableStackAnalysis := false |} |}.

Definition env_quiet : Env := scenario no_files no_hints.

Definition fresh_world : World :=
  {| stderr := ""; files := ∅; locked := fun _ => false |}.

(** A record with two context entries, and one with a single entry. *)
Definition two_keys : ErrorInfo.t :=
  {| ErrorInfo.Error := mkError "user 12345 not found in database";
     ErrorInfo.File := "/home/dev/app/main.go";
     ErrorInfo.Line := 170;
     ErrorInfo.Column := 0;
     ErrorInfo.Function := "main.testContextualErrors";
     ErrorInfo.Context := {[ "user_id" := VInt 12345; "operation" := VString "update" ]};
     ErrorInfo.Stack := [];
     ErrorInfo.SourceLines := [];
     ErrorInfo.ErrorCode := "GEN000";
     ErrorInfo.Suggestion := generic_suggestion |}.

Definition plain : ErrorConfig :=
  {| ShowStackTrace := true; ShowSourceCode := true; ShowSuggestions := true;
     ExitOnError := false; LogToFile := ""; MaxStackDepth := 10;
     ContextLines := 2; UseColors := false; EnableSmartAnalysis := true;
     EnableStackAnalysis := true |}.

(** Records whose message itself holds colour codes: a plain red code, and
    a reset code wrapped around the middle of another one. *)
Definition with_message (msg : string) : ErrorInfo.t :=
  {| ErrorInfo.Error := mkError msg;
     ErrorInfo.File := "/home/dev/app/main.go";
     ErrorInfo.Line := 12;
     ErrorInfo.Column := 0;
     ErrorInfo.Function := "main.main";
     ErrorInfo.Context := ∅;
     ErrorInfo.Stack := [];
     ErrorInfo.SourceLines := [];
     ErrorInfo.ErrorCode := "GEN000";
     ErrorInfo.Suggestion := generic_suggestion |}.

Definition painted : ErrorInfo.t := with_message (Red +:+ "disk full").
Definition nested : ErrorInfo.t :=
  with_message (String esc "[" +:+ Reset +:+ "0m" +:+ "disk full").

(** A catcher that logs to errors.log and does not exit. *)
Definition logging : ErrorCatcher :=
  {| Config := {| ShowStackTrace := true; ShowSourceCode := true;
                  ShowSuggestions := true; ExitOnError := false;
                  LogToFile := "errors.log"; MaxStackDepth := 10;
                  ContextLines := 2; UseColors := true;
                  EnableSmartAnalysis := true; EnableStackAnalysis := true |} |}.

End Scenarios.

(** ** Readings used by the further properties *)

Module Readings.

(** The keys stack inference can set, and the operations it can name. *)
Definition caller_keys : list string :=
  ["operation_type"; "caller_function"; "caller_location"].

Definition operations : list value :=
  [VString "read"; VString "write"; VString "open"; VString "process"; VString "handle"].

(** The annotations [detectContextFromStack] makes of a frame whose function
    is [name]. *)
Definition annotations_of `{Unicode} (fr : RawFrame) (name : string)
  : gmap string value :=
  <["caller_location" :=
      VString (Base (frame_file fr) +:+ ":" +:+ itoa (frame_line fr))]>
    (<["caller_function" := VString (strip_package_path name)]>
       (classify_caller (ToLower (strip_package_path name)) ∅)).

(** The [SourceLine] the loop of [loadSourceContext] makes of a numbered
    line. *)
Definition line_of (centerLine : Z) (entry : Z * string) : SourceLine.t :=
  SourceLine.make entry.1 entry.2 (entry.1 =? centerLine)%Z.

(** The call stack inside an entry point called from store.Load, itself
    called from api.Handle, main.serve and main.main. *)
Definition inside (entry : string) : list RawFrame :=
  [Scenarios.engine_at entry; Scenarios.user_frame "store.Load" 40;
   Scenarios.user_frame "api.Handle" 77; Scenarios.user_frame "main.serve" 18;
   Scenarios.user_frame "main.main" 9].

(** A configuration that asks not to exit but leaves the depth at zero. *)
Definition quiet_but_depth_zero : ErrorConfig :=
  {| ShowStackTrace := false; ShowSourceCode := false; ShowSuggestions := false;
     ExitOnError := false; LogToFile := ""; MaxStackDepth := 0; ContextLines := 0;
     UseColors := false; EnableSmartAnalysis := false; EnableStackAnalysis := false |}.

(** [getConfig] when the package variable [DefaultConfig], which a program
    may assign to, holds [current] at the time of the call. *)
Definition getConfigFrom (current : ErrorConfig) (e : ErrorCatcher) : ErrorConfig :=
  if (MaxStackDepth (Config e) =? 0)%Z then current else Config e.

(** [handleError] from its second statement on, [config] being what
    [e.getConfig()] returned. *)
Definition dispatch (env : Env) (config : ErrorConfig) (info : ErrorInfo.t)
    (w : World) : outcome unit :=
  let message := render config info (range env (ErrorInfo.Context info)) in
  let w := {| stderr := stderr w +:+ message; files := files w; locked := locked w |} in
  let w := if is_empty (LogToFile config) then w
           else logToFile (LogToFile config) message w in
  if ExitOnError config then Exited w 1%Z else Returned w tt.

End Readings.
Export Readings.

(** * Properties *)

(** ** Classifier *)

Section ClassifierFacts.
Context `{Unicode}.

Lemma first_match_none table text :
  first_match table text = None <->
  forall pat, In pat (map fst table) -> Contains text pat = false.
Proof.
  induction table as [|[pat out] rest IH]; simpl.
  - split; [intros _ ? [] | reflexivity].
  - destruct (Contains text pat) eqn:E.
    + split; [discriminate|]. intros Hall.
      rewrite Hall in E by (left; reflexivity). discriminate.
    + rewrite IH. split.
      * intros Hall p [<-|Hin]; [exact E | apply Hall, Hin].
      * intros Hall p Hin. apply Hall. right. exact Hin.
Qed.

Lemma first_match_some table text pat out :
  first_match table text = Some (pat, out) ->
  In (pat, out) table /\ Contains text pat = true.
Proof.
  induction table as [|[p o] rest IH]; simpl; [discriminate|].
  destruct (Contains text p) eqn:E.
  - intros [= <- <-]. split; [left; reflexivity | exact E].
  - intros Hm. destruct (IH Hm) as [Hin Hc]. split; [right; exact Hin | exact Hc].
Qed.

(** The switch of [generateSmartErrorCode] is an ordered scan of
    [code_table]. *)
Lemma code_scan err :
  generateSmartErrorCode err =
  answer generic_code (first_match code_table (ToLower (Error err))).
Proof.
  unfold generateSmartErrorCode, code_table, generic_code.
  generalize (ToLower (Error err)) as text. intros text.
  cbn [first_match].
  repeat lazymatch goal with
         | |- (if ?b then _ else _) = _ => destruct b; [reflexivity|]
         end.
  reflexivity.
Qed.

(** The switch of [generateSmartSuggestion] is an ordered scan of
    [suggestion_table]. *)
Lemma suggestion_scan err :
  generateSmartSuggestion err =
  answer generic_suggestion (first_match suggestion_table (ToLower (Error err))).
Proof.
  unfold generateSmartSuggestion, suggestion_table, generic_suggestion.
  generalize (ToLower (Error err)) as text. intros text.
  cbn [first_match].
  repeat lazymatch goal with
         | |- (if ?b then _ else _) = _ => destruct b; [reflexivity|]
         end.
  reflexivity.
Qed.

Lemma answer_of_code_table text :
  let code := answer generic_code (first_match code_table text) in
  (first_match code_table text = None -> code = generic_code) /\
  (forall pat out, first_match code_table text = Some (pat, out) ->
     code = out /\ out <> generic_code).
Proof.
  cbv zeta. split.
  - intros ->. reflexivity.
  - intros pat out Hm. rewrite Hm. split; [reflexivity|].
    apply first_match_some in Hm as [Hin _].
    unfold code_table in Hin. simpl in Hin.
    repeat (destruct Hin as [[= <- <-]|Hin]; [discriminate|]).
    destruct Hin.
Qed.

End ClassifierFacts.

(** The patterns that have a suggestion of their own are patterns of the
    code table. *)
Lemma suggestion_patterns_are_code_patterns pat :
  In pat (map fst suggestion_table) -> In pat (map fst code_table).
Proof.
  unfold suggestion_table, code_table. simpl.
  intros Hin. repeat (destruct Hin as [<-|Hin]; [tauto|]). destruct Hin.
Qed.

(** C1 (as amended).  The classifier is a total function of the lower-cased
    message: its answer is that of an ordered scan of the sixteen patterns
    (filesystem, network, data, logic), it is one of the table's codes or
    GEN000, and it is GEN000 exactly when no pattern occurs.  A message whose
    lower-cased text contains "connection refused" and none of the five
    filesystem patterns gets NET001, whether or not it also contains
    "timeout"; and no message containing "connection refused" gets the
    timeout code NET002. *)
Theorem classifier_ordered_scan `{Unicode} (err : error) :
  let text := ToLower (Error err) in
  let code := generateSmartErrorCode err in
  code = answer generic_code (first_match code_table text)
  /\ (code = generic_code \/ In code (map snd code_table))
  /\ (code = generic_code <->
      forall pat, In pat (map fst code_table) -> Contains text pat = false)
  /\ (Contains text "connection refused" = true ->
      (forall pat, In pat fs_patterns -> Contains text pat = false) ->
      code = "NET001")
  /\ (Contains text "connection refused" = true -> code <> "NET002").
Proof.
  intros text code. subst code. rewrite code_scan. fold text.
  destruct (answer_of_code_table text) as [Hnone Hsome]. cbv zeta in Hnone, Hsome.
  split; [reflexivity|]. split; [|split; [|split]].
  - destruct (first_match code_table text) as [[pat out]|] eqn:Hm.
    + right. apply first_match_some in Hm as [Hin _].
      simpl. apply (in_map snd) in Hin. exact Hin.
    + left. reflexivity.
  - rewrite <- first_match_none.
    destruct (first_match code_table text) as [[pat out]|] eqn:Hm.
    + destruct (Hsome pat out eq_refl) as [_ Hne]. simpl. split; [congruence|discriminate].
    + split; reflexivity.
  - intros Hrefused Hfs. unfold code_table. cbn [first_match].
    rewrite !Hfs by (unfold fs_patterns; simpl; tauto).
    rewrite Hrefused. reflexivity.
  - intros Hrefused. unfold code_table. cbn [first_match].
    rewrite Hrefused.
    repeat lazymatch goal with
           | |- answer _ (if ?b then _ else _) <> _ => destruct b; [discriminate|]
           end.
    discriminate.
Qed.

(** A message in mixed case with both network patterns and no filesystem
    pattern: the scan stops at "connection refused". *)
Lemma classifier_ordered_scan_witness :
  @generateSmartErrorCode ascii_tables
    (mkError "dial tcp 10.0.0.7:443: Connection Refused (5s timeout)") = "NET001".
Proof.
  pose proof (@classifier_ordered_scan ascii_tables
    (mkError "dial tcp 10.0.0.7:443: Connection Refused (5s timeout)")) as P.
  cbv zeta in P. destruct P as (_ & _ & _ & P & _).
  apply P.
  - vm_compute. reflexivity.
  - intros pat Hin. unfold fs_patterns in Hin. simpl in Hin.
    repeat (destruct Hin as [<-|Hin]; [vm_compute; reflexivity|]). destruct Hin.
Defined.

(** C1 (as stated) fails: a message containing both "connection refused" and
    "timeout" that also contains the filesystem pattern "no such file" gets
    FS001, not NET001. *)
Lemma refused_and_timeout_shadowed_by_filesystem :
  let err := mkError "open hosts: no such file (connection refused, timeout)" in
  Contains (@ToLower ascii_tables (Error err)) "connection refused" = true
  /\ Contains (@ToLower ascii_tables (Error err)) "timeout" = true
  /\ @generateSmartErrorCode ascii_tables err = "FS001"
  /\ @generateSmartErrorCode ascii_tables err <> "NET001".
Proof. vm_compute. repeat split; discriminate. Qed.

(** C6 (as amended).  Code and suggestion come from two separate ordered
    scans: the code from the sixteen-entry code table, the suggestion from a
    seven-entry table of its own (no such file, permission denied, connection
    refused, timeout, parse, index out of range, nil pointer).  When no
    pattern occurs both are generic.  When the pattern that decides the code
    is one of the seven, the suggestion is the one paired with that same
    pattern.  A suggestion that comes from a pattern is never paired with the
    generic code. *)
Theorem code_and_suggestion_scans `{Unicode} (err : error) :
  let text := ToLower (Error err) in
  generateSmartErrorCode err = answer generic_code (first_match code_table text)
  /\ generateSmartSuggestion err =
     answer generic_suggestion (first_match suggestion_table text)
  /\ (first_match code_table text = None ->
      generateSmartErrorCode err = generic_code /\
      generateSmartSuggestion err = generic_suggestion)
  /\ (forall pat code, first_match code_table text = Some (pat, code) ->
      In pat (map fst suggestion_table) ->
      exists hint, In (pat, hint) suggestion_table /\
                   first_match suggestion_table text = Some (pat, hint) /\
                   generateSmartSuggestion err = hint)
  /\ (forall pat hint, first_match suggestion_table text = Some (pat, hint) ->
      generateSmartErrorCode err <> generic_code).
Proof.
  intros text. rewrite code_scan, suggestion_scan. fold text.
  split; [reflexivity|]. split; [reflexivity|]. split; [|split].
  - intros Hnone. rewrite Hnone. split; [reflexivity|].
    assert (first_match suggestion_table text = None) as ->; [|reflexivity].
    apply first_match_none. intros pat Hin.
    apply (proj1 (first_match_none code_table text) Hnone).
    apply suggestion_patterns_are_code_patterns, Hin.
  - intros pat code Hm Hin.
    unfold code_table in Hm. cbn [first_match] in Hm.
    unfold suggestion_table in *. cbn [first_match]. simpl in Hin.
    repeat lazymatch type of Hm with
           | (if ?b then _ else _) = _ =>
               destruct b eqn:?;
               [ injection Hm as <- <-;
                 first [ eexists; split; [|split; reflexivity]; simpl; tauto
                       | exfalso;
                         repeat (destruct Hin as [Hin|Hin]; [discriminate Hin|]);
                         exact Hin ]
               | ]
           end.
    discriminate Hm.
  - intros pat hint Hm.
    destruct (first_match code_table text) as [[p c]|] eqn:Hc.
    + destruct (answer_of_code_table text) as [_ Hsome]. cbv zeta in Hsome.
      destruct (Hsome p c Hc) as [_ Hne]. simpl. exact Hne.
    + exfalso. apply first_match_some in Hm as [Hin Hp].
      rewrite (proj1 (first_match_none code_table text) Hc pat) in Hp; [discriminate|].
      apply suggestion_patterns_are_code_patterns.
      apply (in_map fst) in Hin. exact Hin.
Qed.

(** A timeout message: the code is decided by "timeout", which is one of
    the seven, so the suggestion is the timeout one. *)
Lemma code_and_suggestion_scans_witness :
  @generateSmartSuggestion ascii_tables (mkError "database connection timeout") =
  "increase timeout duration, check network connectivity, or optimize the operation".
Proof.
  pose proof (@code_and_suggestion_scans ascii_tables
    (mkError "database connection timeout")) as P.
  cbv zeta in P. destruct P as (_ & _ & _ & P & _).
  destruct (P "timeout" "NET002") as (hint & Hin & Hm & Hs).
  - vm_compute. reflexivity.
  - simpl. tauto.
  - rewrite Hs. vm_compute in Hm. injection Hm as <-. reflexivity.
Defined.

(** C6 (as stated) fails: "file exists" decides the code of both messages,
    yet the first gets the generic suggestion and the second the suggestion
    of the later pattern "timeout". *)
Lemma code_and_suggestion_from_different_entries :
  let e1 := mkError "mkdir build: file exists" in
  let e2 := mkError "create lock: file exists (timeout waiting)" in
  first_match code_table (@ToLower ascii_tables (Error e1)) = Some ("file exists", "FS003")
  /\ @generateSmartErrorCode ascii_tables e1 = "FS003"
  /\ @generateSmartSuggestion ascii_tables e1 = generic_suggestion
  /\ first_match code_table (@ToLower ascii_tables (Error e2)) = Some ("file exists", "FS003")
  /\ @generateSmartErrorCode ascii_tables e2 = "FS003"
  /\ first_match suggestion_table (@ToLower ascii_tables (Error e2)) =
     Some ("timeout",
           "increase timeout duration, check network connectivity, or optimize the operation")
  /\ @generateSmartSuggestion ascii_tables e2 =
     "increase timeout duration, check network connectivity, or optimize the operation".
Proof. vm_compute. repeat split. Qed.

(** ** Context merge *)

Section MergeFacts.

Lemma fill_absent_union (order : list (string * value)) (ctx : gmap string value) :
  fill_absent order ctx = ctx ∪ list_to_map order.
Proof.
  revert ctx. induction order as [|[k v] rest IH]; intros ctx.
  - simpl. by rewrite (right_id_L ∅ (∪)).
  - unfold fill_absent in *. cbn [foldl fst snd]. rewrite IH.
    cbn [list_to_map foldr uncurry].
    destruct (ctx !! k) as [old|] eqn:E;
      apply map_eq; intros j; rewrite !lookup_union;
      (destruct (decide (k = j)) as [<-|Hne];
       [|by rewrite ?lookup_insert_ne]).
    + rewrite E, lookup_insert_eq. by destruct (list_to_map rest !! k).
    + rewrite E, !lookup_insert_eq. simpl. by destruct (list_to_map rest !! k).
Qed.

Lemma visits_list_to_map (m : gmap string value) order :
  visits m order -> list_to_map order = m.
Proof.
  unfold visits. intros Hp.
  transitivity (list_to_map (map_to_list m) : gmap string value);
    [|apply list_to_map_to_list].
  apply list_to_map_proper; [|exact Hp].
  rewrite Hp. apply NoDup_fst_map_to_list.
Qed.

Lemma fill_absent_visits (m ctx : gmap string value) order :
  visits m order -> fill_absent order ctx = ctx ∪ m.
Proof. intros Hv. by rewrite fill_absent_union, (visits_list_to_map m order Hv). Qed.

Lemma range_is_fair_in_scenarios files hints : fair_range (Scenarios.scenario files hints).
Proof. intros m. unfold visits. reflexivity. Qed.

End MergeFacts.

(** C2.  Whatever source and stack inference produce, the map built by
    [buildSmartContext] is the normalized explicit context, completed by the
    source-inferred entries for the keys it lacks, completed in turn by the
    stack-inferred entries for the keys still lacking: every explicit key
    keeps its explicit value, a source-inferred entry is used only for a key
    absent from the explicit context, a stack-inferred one only for a key
    absent from both.  The two merge loops do so for arbitrary maps. *)
Theorem explicit_context_wins `{Unicode} (env : Env) (Catch : ErrorCatcher)
    (stack : list RawFrame) (file : string) (line : Z) (context : list value) :
  fair_range env ->
  let config := getConfig Catch in
  let explicit := parseProvidedContext env ∅ context in
  let sourceCtx :=
    if EnableSmartAnalysis config then detectContextFromSource env file line else ∅ in
  let stackCtx :=
    if EnableStackAnalysis config
    then detectContextFromStack (enter env "detectContextFromStack" stack) else ∅ in
  let merged := buildSmartContext env Catch stack file line context in
  merged = explicit ∪ sourceCtx ∪ stackCtx
  /\ (forall k v, explicit !! k = Some v -> merged !! k = Some v)
  /\ (forall k v, explicit !! k = None -> sourceCtx !! k = Some v ->
      merged !! k = Some v)
  /\ (forall k, explicit !! k = None -> sourceCtx !! k = None ->
      merged !! k = stackCtx !! k)
  /\ (forall (ctx inferred1 inferred2 : gmap string value) order1 order2 k v,
      visits inferred1 order1 -> visits inferred2 order2 ->
      ctx !! k = Some v ->
      fill_absent order2 (fill_absent order1 ctx) !! k = Some v).
Proof.
  intros Hfair config explicit sourceCtx stackCtx merged.
  assert (merged = explicit ∪ sourceCtx ∪ stackCtx) as Hmerged.
  { subst merged sourceCtx stackCtx. unfold buildSmartContext. fold config. fold explicit.
    destruct (EnableSmartAnalysis config), (EnableStackAnalysis config);
      rewrite ?(fill_absent_visits _ _ _ (Hfair _));
      by rewrite ?(right_id_L ∅ (∪)). }
  split; [exact Hmerged|]. rewrite Hmerged. repeat split.
  - intros k v Hk. rewrite !lookup_union, Hk.
    by destruct (sourceCtx !! k), (stackCtx !! k).
  - intros k v Hk Hs. rewrite !lookup_union, Hk, Hs. by destruct (stackCtx !! k).
  - intros k Hk Hs. rewrite !lookup_union, Hk, Hs. by destruct (stackCtx !! k).
  - intros ctx i1 i2 o1 o2 k v H1 H2 Hk.
    rewrite (fill_absent_visits i2 _ o2 H2), (fill_absent_visits i1 _ o1 H1).
    rewrite !lookup_union, Hk. by destruct (i1 !! k), (i2 !! k).
Qed.

(** The explicit pair "user_id", 42 survives source inference that proposes
    "user_id" -> 7. *)
Lemma explicit_context_wins_witness :
  detectContextFromSource Scenarios.env_user_id "main.go" 12 !! "user_id" = Some (VInt 7)
  /\ @buildSmartContext ascii_tables Scenarios.env_user_id {| Config := DefaultConfig |}
       [] "main.go" 12 [VString "user_id"; VInt 42] !! "user_id" = Some (VInt 42).
Proof.
  split; [reflexivity|].
  pose proof (@explicit_context_wins ascii_tables Scenarios.env_user_id
                {| Config := DefaultConfig |} [] "main.go" 12%Z
                [VString "user_id"; VInt 42]
                (range_is_fair_in_scenarios _ _)) as P.
  cbv zeta in P. destruct P as (_ & P & _).
  apply P. vm_compute. reflexivity.
Defined.

(** ** Source window *)

Section WindowFacts.
Local Open Scope Z_scope.

Lemma wrap_id z : is_int z -> wrap z = z.
Proof.
  unfold is_int, int_min, int_max, wrap. intros Hz.
  rewrite Z.mod_small; lia.
Qed.

Lemma nothing_beyond_window center radius (a : nat) (texts : list string) :
  center + radius < Z.of_nat a ->
  List.filter (in_window center radius)
    (zip (Z.of_nat <$> seq a (length texts)) texts) = [].
Proof.
  revert a. induction texts as [|t texts IH]; intros a Ha; [reflexivity|].
  simpl. unfold in_window at 1. simpl.
  replace (Z.of_nat a <=? center + radius) with false by lia.
  rewrite andb_false_r. apply IH. lia.
Qed.

(** The loop, started after [n] lines with [acc] collected, adds the lines
    of the window among those still to be scanned. *)
Lemma scan_loop_window center radius texts n acc :
  0 <= n -> n + Z.of_nat (length texts) <= int_max ->
  scan_loop center (Z.max 1 (center - radius)) (center + radius) texts n acc =
  acc ++ ((fun entry => SourceLine.make entry.1 entry.2 (entry.1 =? center)) <$>
          List.filter (in_window center radius)
            (zip (Z.of_nat <$> seq (S (Z.to_nat n)) (length texts)) texts)).
Proof.
  revert n acc. induction texts as [|t texts IH]; intros n acc Hn Hlen.
  - simpl. by rewrite app_nil_r.
  - cbn [scan_loop]. unfold add. rewrite wrap_id.
    2:{ unfold is_int, int_min, int_max in *. cbn [length] in Hlen. lia. }
    cbn [length seq fmap list_fmap zip zip_with List.filter].
    replace (Z.of_nat (S (Z.to_nat n))) with (n + 1) by lia.
    unfold in_window at 1. cbn [fst snd].
    destruct (center + radius <? n + 1) eqn:Hhi.
    + replace (n + 1 <=? center + radius) with false by lia. rewrite andb_false_r.
      rewrite nothing_beyond_window by lia. simpl. by rewrite app_nil_r.
    + cbn [length] in Hlen. rewrite IH by lia.
      replace (S (Z.to_nat (n + 1))) with (S (S (Z.to_nat n))) by lia.
      destruct ((Z.max 1 (center - radius) <=? n + 1) && (n + 1 <=? center + radius));
        [|reflexivity].
      rewrite <- app_assoc. reflexivity.
Qed.

End WindowFacts.

(** C3 (as amended).  For a file that cannot be opened the result is empty.
    For a file that can, and provided [centerLine - radius] and
    [centerLine + radius] are representable as a Go [int] (so that neither
    bound of the window wraps around), the result is, in order, exactly the
    lines numbered in [max(1, centerLine - radius), centerLine + radius], the
    flag being set on the line numbered [centerLine] and on no other.  For a
    100-line file, [centerLine = 50, radius = 2] gives lines 48 to 52 with
    line 50 flagged, and [centerLine = 1, radius = 2] gives lines 1 to 3. *)
Theorem loadSourceContext_window (env : Env) (filename : string) :
  (sources env filename = None ->
   forall centerLine radius, loadSourceContext env filename centerLine radius = [])
  /\ (forall texts centerLine radius,
        sources env filename = Some texts ->
        (Z.of_nat (length texts) <= int_max)%Z ->
        is_int (centerLine - radius) -> is_int (centerLine + radius) ->
        loadSourceContext env filename centerLine radius =
        window_of texts centerLine radius)
  /\ (forall texts,
        sources env filename = Some texts -> length texts = 100%nat ->
        loadSourceContext env filename 50 2 =
          zip_with (fun n text => SourceLine.make n text (n =? 50)%Z)
            [48; 49; 50; 51; 52]%Z (take 5 (drop 47 texts))
        /\ loadSourceContext env filename 1 2 =
          zip_with (fun n text => SourceLine.make n text (n =? 1)%Z)
            [1; 2; 3]%Z (take 3 texts)).
Proof.
  assert (forall texts centerLine radius,
        sources env filename = Some texts ->
        (Z.of_nat (length texts) <= int_max)%Z ->
        is_int (centerLine - radius) -> is_int (centerLine + radius) ->
        loadSourceContext env filename centerLine radius =
        window_of texts centerLine radius) as Hwindow.
  { intros texts c r Hsrc Hlen Hlo Hhi.
    unfold loadSourceContext. rewrite Hsrc. unfold sub, add at 1.
    rewrite !wrap_id by assumption.
    assert ((if (c - r <? 1)%Z then 1%Z else (c - r)%Z) = Z.max 1 (c - r)) as ->
      by (destruct (Z.ltb_spec (c - r) 1); lia).
    rewrite scan_loop_window by lia. reflexivity. }
  split; [|split; [exact Hwindow|]].
  - intros Hsrc c r. unfold loadSourceContext. rewrite Hsrc. reflexivity.
  - intros texts Hsrc Hlen.
    rewrite !(Hwindow texts) by
      (try assumption; unfold is_int, int_min, int_max; rewrite ?Hlen; lia).
    do 100 (destruct texts as [|? texts]; [discriminate Hlen|]).
    destruct texts; [|discriminate Hlen].
    split; vm_compute; reflexivity.
Qed.

(** The two windows of the specification, on a 100-line main.go. *)
Lemma loadSourceContext_window_witness :
  loadSourceContext Scenarios.env_hundred "main.go" 50 2 =
    [SourceLine.make 48 "line 48" false; SourceLine.make 49 "line 49" false;
     SourceLine.make 50 "line 50" true; SourceLine.make 51 "line 51" false;
     SourceLine.make 52 "line 52" false]
  /\ loadSourceContext Scenarios.env_hundred "main.go" 1 2 =
    [SourceLine.make 1 "line 1" true; SourceLine.make 2 "line 2" false;
     SourceLine.make 3 "line 3" false]
  /\ loadSourceContext Scenarios.env_hundred "main.go" 99 5 =
     window_of Scenarios.hundred_lines 99 5
  /\ loadSourceContext Scenarios.env_hundred "gone.go" 50 2 = [].
Proof.
  destruct (loadSourceContext_window Scenarios.env_hundred "main.go") as (_ & Hw & Hh).
  destruct (Hh Scenarios.hundred_lines eq_refl eq_refl) as [H50 H1].
  split; [rewrite H50; vm_compute; reflexivity|].
  split; [rewrite H1; vm_compute; reflexivity|].
  split.
  - apply Hw; [reflexivity | vm_compute; discriminate | | ];
      unfold is_int; vm_compute; split; discriminate.
  - destruct (loadSourceContext_window Scenarios.env_hundred "gone.go") as (Hnone & _).
    apply Hnone. reflexivity.
Defined.

(** C3 (as stated) fails where a bound of the window leaves the range of
    [int]: with the largest radius, [centerLine + radius] wraps around to a
    negative number and the first line of the file, which lies in
    [max(1, centerLine - radius), centerLine + radius], is not returned. *)
Lemma window_lost_when_radius_wraps :
  loadSourceContext Scenarios.env_one_line "main.go" 1 9223372036854775807 = []
  /\ window_of ["package main"] 1 9223372036854775807 =
     [SourceLine.make 1 "package main" true].
Proof. vm_compute. split; reflexivity. Qed.

(** ** Explicit context *)

(** C8.  The value of a key/value pair is parsed a second time, as an item
    of its own: a string in that position is also recorded under "path" or
    "operation", an integer under "value_1".  So ("file", "data.txt") yields
    two entries, file and path, not the single entry file. *)
Theorem pair_value_is_parsed_again `{Unicode} (env : Env) :
  (forall key v : string,
     parseProvidedContext env ∅ [VString key; VString v] =
     <[(if Contains v "/" || Contains v "." then "path" else "operation") := VString v]>
       {[ key := VString v ]})
  /\ parseProvidedContext env ∅ [VString "file"; VString "data.txt"] =
     <["path" := VString "data.txt"]> {[ "file" := VString "data.txt" ]}
  /\ parseProvidedContext env ∅ [VString "file"; VString "data.txt"] <>
     {[ "file" := VString "data.txt" ]}
  /\ parseProvidedContext env ∅ [VString "user_id"; VInt 42] =
     <["value_1" := VInt 42]> {[ "user_id" := VInt 42 ]}.
Proof.
  assert (forall key v : string,
     parseProvidedContext env ∅ [VString key; VString v] =
     <[(if Contains v "/" || Contains v "." then "path" else "operation") := VString v]>
       {[ key := VString v ]}) as Hpair.
  { intros key v. unfold parseProvidedContext.
    cbn [parse_items parse_item length Nat.ltb Nat.leb Nat.add Nat.modulo Nat.eqb
         andb lookup list_lookup].
    change ((0 + 1 <? 2)%nat) with true. change ((0 mod 2 =? 0)%nat) with true.
    change ((1 + 1 <? 2)%nat) with false.
    cbn [andb]. change ([VString key; VString v] !! (0 + 1)%nat) with (Some (VString v)).
    cbv iota beta.
    destruct (Contains v "/" || Contains v "."); reflexivity. }
  split; [exact Hpair|].
  assert (parseProvidedContext env ∅ [VString "file"; VString "data.txt"] =
          <["path" := VString "data.txt"]> {[ "file" := VString "data.txt" ]}) as Hfile.
  { rewrite Hpair. reflexivity. }
  split; [exact Hfile|]. split; [|reflexivity].
  rewrite Hfile. intros Heq.
  apply (f_equal (fun m : gmap string value => m !! "path")) in Heq.
  vm_compute in Heq. discriminate Heq.
Qed.

(** ** Stack capture *)

Section TraceFacts.
Local Open Scope Z_scope.

(** With enough fuel the loop collects the frames numbered from [i] up to,
    and excluding, [bound]. *)
Lemma trace_loop_frames stack bound fuel i acc :
  0 <= i -> bound <= int_max ->
  (length stack < fuel + Z.to_nat i)%nat ->
  trace_loop stack bound fuel i acc =
  acc ++ (frame_of <$> take (Z.to_nat (bound - i)) (drop (Z.to_nat i) stack)).
Proof.
  revert i acc. induction fuel as [|fuel IH]; intros i acc Hi Hbound Hfuel.
  - rewrite drop_ge by lia. rewrite take_nil. simpl. by rewrite app_nil_r.
  - cbn [trace_loop]. destruct (i <? bound) eqn:Hlt.
    + unfold runtime_Caller. replace (i <? 0) with false by lia.
      destruct (stack !! Z.to_nat i) as [fr|] eqn:Hfr.
      * unfold add. rewrite wrap_id by (unfold is_int, int_min, int_max in *; lia).
        rewrite IH by lia.
        rewrite (drop_S _ _ _ Hfr).
        replace (Z.to_nat (bound - i)) with (S (Z.to_nat (bound - (i + 1)))) by lia.
        replace (Z.to_nat (i + 1)) with (S (Z.to_nat i)) by lia.
        cbn [take fmap list_fmap]. rewrite <- app_assoc. reflexivity.
      * apply lookup_ge_None in Hfr. rewrite drop_ge by lia.
        rewrite take_nil. simpl. by rewrite app_nil_r.
    + replace (Z.to_nat (bound - i)) with O by lia. simpl. by rewrite app_nil_r.
Qed.

End TraceFacts.

(** C9.  The loop runs from [skip + 1] while [i < skip + MaxStackDepth]: it
    collects the frames numbered [skip + 1] to [skip + d - 1], one fewer than
    the configured depth [d].  Whenever the chain has [d] frames above the
    skip point, the trace has exactly [d - 1] of them. *)
Theorem buildStackTrace_one_frame_short (e : ErrorCatcher) (skip : Z)
    (stack : list RawFrame) :
  let d := MaxStackDepth (getConfig e) in
  (0 <= skip)%Z -> (1 <= d)%Z -> is_int (skip + d) ->
  (skip + d < Z.of_nat (length stack))%Z ->
  buildStackTrace e skip stack =
    frame_of <$> take (Z.to_nat (d - 1)) (drop (Z.to_nat (skip + 1)) stack)
  /\ Z.of_nat (length (buildStackTrace e skip stack)) = (d - 1)%Z.
Proof.
  intros d Hskip Hd Hint Hlen.
  assert (buildStackTrace e skip stack =
    frame_of <$> take (Z.to_nat (d - 1)) (drop (Z.to_nat (skip + 1)) stack)) as Heq.
  { unfold buildStackTrace. fold d. unfold add.
    rewrite !wrap_id by (unfold is_int, int_min, int_max in *; lia).
    rewrite trace_loop_frames by (unfold is_int, int_min, int_max in *; lia).
    replace (skip + d - (skip + 1))%Z with (d - 1)%Z by lia. reflexivity. }
  split; [exact Heq|].
  rewrite Heq, length_fmap, length_take, length_drop. lia.
Qed.

(** Depth three, six frames on the stack, skip one: two frames come back. *)
Lemma buildStackTrace_one_frame_short_witness :
  buildStackTrace Scenarios.depth_three 1 Scenarios.six_frames =
    [StackFrame.make "/home/dev/app/main.go" 40 "store.Load";
     StackFrame.make "/home/dev/app/main.go" 77 "api.Handle"]
  /\ Z.of_nat (length (buildStackTrace Scenarios.depth_three 1 Scenarios.six_frames)) = 2%Z.
Proof.
  destruct (buildStackTrace_one_frame_short Scenarios.depth_three 1 Scenarios.six_frames)
    as [Heq Hlen].
  - lia.
  - vm_compute. discriminate.
  - unfold is_int. vm_compute. split; discriminate.
  - vm_compute. reflexivity.
  - split; [rewrite Heq; vm_compute; reflexivity | exact Hlen].
Defined.

(** ** Entry points *)

(** C7.  A nil failure is a no-op on the outside world: at the end of any
    chain of [WithContext] calls, and for [Err] with any context arguments,
    the call returns nil and leaves console, log files and process as they
    were, whatever the configuration. *)
Theorem nil_failure_is_a_no_op `{Unicode} (env : Env) (e Catch : ErrorCatcher)
    (first : string * value) (more : list (string * value))
    (context : list value) (stack : list RawFrame) (w : World) :
  ContextualCatcher_Set env (chain e first more) None stack w = Returned w None
  /\ Err env Catch None context stack w = Returned w None.
Proof. split; reflexivity. Qed.

(** C10 (as amended).  [Err] and [ErrorCatcher.Set] never replace, wrap or
    clear the failure: a nil argument is returned at once; a non-nil argument
    is returned unchanged after the report when exit-on-error is off in the
    effective configuration; when it is on (as in the default configuration)
    the process exits with status 1 inside the report and the call does not
    return. *)
Theorem entry_points_hand_back_the_error `{Unicode} (env : Env)
    (e Catch : ErrorCatcher) (err : option error) (context : list value)
    (stack : list RawFrame) (w : World) :
  (err = None ->
     Err env Catch err context stack w = Returned w None /\
     ErrorCatcher_Set env e err stack w = Returned w None)
  /\ (err <> None -> ExitOnError (getConfig Catch) = false ->
      exists w', Err env Catch err context stack w = Returned w' err)
  /\ (err <> None -> ExitOnError (getConfig e) = false ->
      exists w', ErrorCatcher_Set env e err stack w = Returned w' err)
  /\ (err <> None -> ExitOnError (getConfig Catch) = true ->
      exists w', Err env Catch err context stack w = Exited w' 1)
  /\ (err <> None -> ExitOnError (getConfig e) = true ->
      exists w', ErrorCatcher_Set env e err stack w = Exited w' 1)
  /\ (forall w' r, Err env Catch err context stack w = Returned w' r -> r = err)
  /\ (forall w' r, ErrorCatcher_Set env e err stack w = Returned w' r -> r = err).
Proof.
  destruct err as [failure|].
  - unfold Err, ErrorCatcher_Set, handleError, bind. cbv zeta.
    repeat split; try discriminate.
    + intros _ ->. eexists. reflexivity.
    + intros _ ->. eexists. reflexivity.
    + intros _ ->. eexists. reflexivity.
    + intros _ ->. eexists. reflexivity.
    + intros w' r. destruct (ExitOnError (getConfig Catch)); [discriminate|].
      intros [= _ <-]. reflexivity.
    + intros w' r. destruct (ExitOnError (getConfig e)); [discriminate|].
      intros [= _ <-]. reflexivity.
  - repeat split; try (intros Hne; exfalso; apply Hne; reflexivity).
    + intros w' r [= _ <-]. reflexivity.
    + intros w' r [= _ <-]. reflexivity.
Qed.

(** With exit-on-error off, both entry points hand back the very error they
    were given. *)
Lemma entry_points_hand_back_the_error_witness :
  (exists w', @Err ascii_tables Scenarios.env_quiet Scenarios.depth_three
                (Some (mkError "boom")) [] Scenarios.six_frames Scenarios.fresh_world
              = Returned w' (Some (mkError "boom")))
  /\ (exists w', @ErrorCatcher_Set ascii_tables Scenarios.env_quiet Scenarios.depth_three
                (Some (mkError "boom")) Scenarios.six_frames Scenarios.fresh_world
              = Returned w' (Some (mkError "boom")))
  /\ (exists w', @Err ascii_tables Scenarios.env_quiet {| Config := DefaultConfig |}
                (Some (mkError "boom")) [] Scenarios.six_frames Scenarios.fresh_world
              = Exited w' 1).
Proof.
  destruct (@entry_points_hand_back_the_error ascii_tables Scenarios.env_quiet
              Scenarios.depth_three Scenarios.depth_three (Some (mkError "boom")) []
              Scenarios.six_frames Scenarios.fresh_world)
    as (_ & HErr & HSet & _).
  destruct (@entry_points_hand_back_the_error ascii_tables Scenarios.env_quiet
              Scenarios.depth_three {| Config := DefaultConfig |} (Some (mkError "boom")) []
              Scenarios.six_frames Scenarios.fresh_world)
    as (_ & _ & _ & HExit & _).
  split; [apply HErr; [discriminate | reflexivity]|].
  split; [apply HSet; [discriminate | reflexivity]|].
  apply HExit; [discriminate | reflexivity].
Defined.

(** C10 (as stated) fails under the default configuration: a non-nil error
    makes [Err] and [ErrorCatcher.Set] end the process with status 1, so
    neither returns its argument. *)
Lemma default_configuration_exits_instead_of_returning :
  (exists w', @Err ascii_tables Scenarios.env_quiet {| Config := DefaultConfig |}
                (Some (mkError "boom")) [] Scenarios.six_frames Scenarios.fresh_world
              = Exited w' 1)
  /\ (exists w', @ErrorCatcher_Set ascii_tables Scenarios.env_quiet
                {| Config := DefaultConfig |}
                (Some (mkError "boom")) Scenarios.six_frames Scenarios.fresh_world
              = Exited w' 1)
  /\ (forall w', @Err ascii_tables Scenarios.env_quiet {| Config := DefaultConfig |}
                (Some (mkError "boom")) [] Scenarios.six_frames Scenarios.fresh_world
              <> Returned w' (Some (mkError "boom")))
  /\ (forall w', @ErrorCatcher_Set ascii_tables Scenarios.env_quiet
                {| Config := DefaultConfig |}
                (Some (mkError "boom")) Scenarios.six_frames Scenarios.fresh_world
              <> Returned w' (Some (mkError "boom"))).
Proof.
  repeat split.
  - eexists. reflexivity.
  - eexists. reflexivity.
  - intros w'. discriminate.
  - intros w'. discriminate.
Qed.

(** ** Rendering *)

(** Strings *)

Lemma append_cons ch (a b : string) : String ch a +:+ b = String ch (a +:+ b).
Proof. reflexivity. Qed.
Lemma append_assoc (a b c : string) : (a +:+ b) +:+ c = a +:+ b +:+ c.
Proof. induction a as [|ch a IH]; [reflexivity|]. rewrite !append_cons. by rewrite IH. Qed.
Lemma append_nil_r (a : string) : a +:+ "" = a.
Proof. induction a as [|ch a IH]; [reflexivity|]. rewrite append_cons. by rewrite IH. Qed.

Lemma esc_free_cons ch s :
  esc_free (String ch s) = true <-> ch <> esc /\ esc_free s = true.
Proof.
  simpl. rewrite andb_true_iff, negb_true_iff, Ascii.eqb_neq. reflexivity.
Qed.

Lemma esc_free_app a b : esc_free (a +:+ b) = esc_free a && esc_free b.
Proof.
  induction a as [|ch a IH]; [reflexivity|].
  rewrite append_cons. simpl. rewrite IH. by rewrite andb_assoc.
Qed.

Lemma esc_free_Repeat_space n : esc_free (Repeat " " n) = true.
Proof. induction n as [|n IH]; [reflexivity|]. simpl. rewrite esc_free_app, IH. reflexivity. Qed.

Lemma esc_free_pad_left w s : esc_free s = true -> esc_free (pad_left w s) = true.
Proof. intros Hs. unfold pad_left. by rewrite esc_free_app, esc_free_Repeat_space, Hs. Qed.

Lemma esc_free_digits u : esc_free (NilEmpty.string_of_uint u) = true.
Proof. induction u; simpl; try assumption; reflexivity. Qed.

Lemma esc_free_uint u : esc_free (NilZero.string_of_uint u) = true.
Proof. destruct u; try apply esc_free_digits; reflexivity. Qed.

Lemma esc_free_itoa z : esc_free (itoa z) = true.
Proof.
  unfold itoa, NilZero.string_of_int.
  destruct (Z.to_int z) as [u|u]; [apply esc_free_uint|].
  apply esc_free_cons. split; [discriminate|apply esc_free_uint].
Qed.

Lemma esc_free_strip_trailing_slashes s :
  esc_free s = true -> esc_free (strip_trailing_slashes s) = true.
Proof.
  induction s as [|ch s IH]; [reflexivity|].
  intros [Hch Hs]%esc_free_cons. cbn [strip_trailing_slashes].
  destruct (is_slash ch && is_empty (strip_trailing_slashes s)); [reflexivity|].
  apply esc_free_cons. auto.
Qed.

Lemma esc_free_last_element s : esc_free s = true -> esc_free (last_element s) = true.
Proof.
  induction s as [|ch s IH]; [reflexivity|].
  intros Hall. pose proof Hall as [Hch Hs]%esc_free_cons. cbn [last_element].
  destruct (Contains s "/"); [auto|]. destruct (is_slash ch); auto.
Qed.

Lemma esc_free_Base s : esc_free s = true -> esc_free (Base s) = true.
Proof.
  intros Hs. unfold Base. destruct (is_empty s); [reflexivity|].
  destruct (is_empty _) eqn:E; [reflexivity|].
  by apply esc_free_last_element, esc_free_strip_trailing_slashes.
Qed.

(** Styled texts *)

Section Styled.
Context (allowed : string -> Prop).

Lemma styled_app c1 p1 c2 p2 :
  styled allowed c1 p1 -> styled allowed c2 p2 ->
  styled allowed (c1 +:+ c2) (p1 +:+ p2).
Proof.
  intros H1 H2. induction H1 as [|tok c p Htok H1 IH|ch c p Hch H1 IH].
  - exact H2.
  - rewrite append_assoc. by apply styled_token.
  - rewrite !append_cons. by apply styled_byte.
Qed.

Lemma styled_plain s : esc_free s = true -> styled allowed s s.
Proof.
  induction s as [|ch s IH]; [constructor|].
  intros [Hch Hs]%esc_free_cons. apply styled_byte; auto.
Qed.

Lemma styled_text s c p :
  esc_free s = true -> styled allowed c p -> styled allowed (s +:+ c) (s +:+ p).
Proof. intros Hs Hc. apply styled_app; [by apply styled_plain|exact Hc]. Qed.

Lemma styled_plain_side c p : styled allowed c p -> esc_free p = true.
Proof.
  induction 1 as [|tok c p Htok H1 IH|ch c p Hch H1 IH];
    [reflexivity|exact IH|by apply esc_free_cons].
Qed.

End Styled.

Lemma styled_weaken (A B : string -> Prop) c p :
  (forall t, A t -> B t) -> styled A c p -> styled B c p.
Proof. intros HAB. induction 1; constructor; auto. Qed.

Lemma styled_none c p : styled (fun _ => False) c p -> c = p.
Proof. induction 1 as [|tok c p [] _ _|ch c p _ _ IH]; [reflexivity|by rewrite IH]. Qed.

(** The eleven colour codes under [ReplaceAll] *)

Ltac each_escape H :=
  unfold is_escape, escapes in H; cbn [In] in H;
  repeat (destruct H as [<-|H]); [..|destruct H].

Lemma escape_not_empty tok : is_escape tok -> is_empty tok = false.
Proof. intros Htok. each_escape Htok; reflexivity. Qed.

Lemma replace_escape_itself tok c :
  is_escape tok -> replace_from tok "" 0 (tok +:+ c) = replace_from tok "" 0 c.
Proof. intros Htok. each_escape Htok; destruct c; vm_compute; reflexivity. Qed.

Lemma replace_other_escape tok tok' c :
  is_escape tok -> is_escape tok' -> tok <> tok' ->
  replace_from tok "" 0 (tok' +:+ c) = tok' +:+ replace_from tok "" 0 c.
Proof.
  intros Htok Htok' Hne.
  each_escape Htok; each_escape Htok'; try (exfalso; apply Hne; reflexivity);
    vm_compute; reflexivity.
Qed.

Lemma replace_plain_byte tok ch c :
  is_escape tok -> ch <> esc ->
  replace_from tok "" 0 (String ch c) = String ch (replace_from tok "" 0 c).
Proof.
  intros Htok Hch.
  assert (forall rest, String.prefix (String esc rest) (String ch c) = false) as Hpre.
  { intros rest. cbn [String.prefix]. destruct (ascii_dec esc ch) as [E|E]; [|reflexivity].
    exfalso. apply Hch. symmetry. exact E. }
  each_escape Htok; cbn [replace_from]; unfold Reset, Bold, Red, Green, Yellow, Blue,
    Magenta, Cyan, White, BrightRed, Gray; rewrite Hpre; reflexivity.
Qed.

Lemma strip_pass (A : string -> Prop) tok c p :
  is_escape tok -> (forall t, A t -> is_escape t) ->
  styled A c p -> styled (fun t => A t /\ t <> tok) (ReplaceAll c tok "") p.
Proof.
  intros Htok HA Hst. unfold ReplaceAll. rewrite (escape_not_empty tok Htok).
  induction Hst as [|tok' c p Htok' Hst IH|ch c p Hch Hst IH].
  - constructor.
  - destruct (string_dec tok' tok) as [->|Hne].
    + rewrite replace_escape_itself by exact Htok. exact IH.
    + rewrite replace_other_escape by auto. apply styled_token; auto.
  - rewrite replace_plain_byte by auto. apply styled_byte; auto.
Qed.

Lemma strip_passes todo (A : string -> Prop) c p :
  (forall t, In t todo -> is_escape t) -> (forall t, A t -> is_escape t) ->
  styled A c p ->
  styled (fun t => A t /\ ~ In t todo)
    (foldl (fun result escape => ReplaceAll result escape "") c todo) p.
Proof.
  revert A c. induction todo as [|e todo IH]; intros A c Htodo HA Hst.
  - simpl. eapply styled_weaken; [|exact Hst]. intros t Ht. split; [exact Ht|intros []].
  - cbn [foldl].
    apply (styled_weaken (fun t => (A t /\ t <> e) /\ ~ In t todo)).
    + intros t [[Ht Hne] Hnin]. split; [exact Ht|].
      cbn [In]. intros [Heq|Hin]; [by apply Hne|by apply Hnin].
    + apply IH.
      * intros t Ht. apply Htodo. by right.
      * intros t [Ht _]. by apply HA.
      * apply strip_pass; [apply Htodo; by left | exact HA | exact Hst].
Qed.

Lemma stripANSI_styled c p : styled is_escape c p -> stripANSI c = p.
Proof.
  intros Hst. unfold stripANSI. apply styled_none.
  apply (styled_weaken (fun t => is_escape t /\ ~ In t escapes)).
  - intros t [Ht Hnin]. by apply Hnin.
  - apply strip_passes; auto.
Qed.

Lemma esc_free_no_escape s tok : esc_free s = true -> is_escape tok -> Contains s tok = false.
Proof.
  intros Hs Htok.
  assert (exists rest, tok = String esc rest) as [rest ->].
  { each_escape Htok; eexists; reflexivity. }
  induction s as [|ch s IH]; [reflexivity|].
  apply esc_free_cons in Hs as [Hch Hs]. cbn [Contains String.prefix].
  destruct (ascii_dec esc ch) as [E|E]; [exfalso; apply Hch; by symmetry|].
  simpl. by apply IH.
Qed.

Lemma esc_free_nl : esc_free nl = true.
Proof. reflexivity. Qed.

Create HintDb esc discriminated.
#[local] Hint Resolve esc_free_nl esc_free_itoa esc_free_Base esc_free_pad_left
  esc_free_Repeat_space : esc.

Ltac escape_member :=
  unfold is_escape, escapes; cbn [In]; repeat first [left; reflexivity | right].

Ltac not_esc := let E := fresh in intros E; vm_compute in E; discriminate E.

Ltac styling :=
  repeat first
    [ apply styled_end
    | apply styled_byte; [not_esc|]
    | apply styled_token; [solve [escape_member]|]
    | apply styled_text; [solve [eauto with esc]|]
    | apply styled_plain; solve [eauto with esc] ].

Ltac flatten :=
  cbn [UseColors ShowSourceCode ShowSuggestions ShowStackTrace with_colors];
  cbv zeta; rewrite ?append_assoc; cbn; rewrite ?append_assoc.

Section RenderStyled.
Local Arguments String.append : simpl nomatch.
Local Arguments Reset : simpl never.
Local Arguments Bold : simpl never.
Local Arguments Red : simpl never.
Local Arguments Green : simpl never.
Local Arguments Yellow : simpl never.
Local Arguments Blue : simpl never.
Local Arguments Magenta : simpl never.
Local Arguments Cyan : simpl never.
Local Arguments White : simpl never.
Local Arguments BrightRed : simpl never.
Local Arguments Gray : simpl never.
Local Arguments nl : simpl never.
Local Arguments pad_left : simpl never.
Local Arguments Repeat : simpl never.
Local Arguments itoa : simpl never.
Local Arguments Base : simpl never.
Local Arguments show : simpl never.

Variable config : ErrorConfig.
Local Abbreviation colored := (with_colors true config).
Local Abbreviation plain := (with_colors false config).

Lemma header_styled info :
  unstyled info ->
  styled is_escape (header_block colored info) (header_block plain info).
Proof.
  intros (Hmsg & Hcode & _). unfold header_block. flatten. styling.
Qed.

Lemma location_styled info :
  unstyled info ->
  styled is_escape (location_block colored info) (location_block plain info).
Proof.
  intros (_ & _ & Hfile & _). unfold location_block. flatten. styling.
Qed.

Lemma write_each_styled {A} (f g : A -> string) (P : A -> Prop) (l : list A) :
  (forall x, P x -> styled is_escape (f x) (g x)) -> Forall P l ->
  styled is_escape (write_each f l) (write_each g l).
Proof.
  intros Hfg Hall. induction Hall as [|x l Hx Hall IH]; [constructor|].
  cbn [write_each]. apply styled_app; auto.
Qed.

Lemma source_line_styled padding sourceLine :
  esc_free (SourceLine.Content sourceLine) = true ->
  styled is_escape (source_line_text colored padding sourceLine)
    (source_line_text plain padding sourceLine).
Proof.
  intros Hcontent. unfold source_line_text.
  destruct (SourceLine.IsError sourceLine); flatten; styling.
Qed.

Lemma source_styled info :
  unstyled info ->
  styled is_escape (source_block colored info) (source_block plain info).
Proof.
  intros (_ & _ & _ & _ & Hlines & _). unfold source_block.
  destruct (last (ErrorInfo.SourceLines info)); [|constructor].
  cbn [ShowSourceCode with_colors]. destruct (ShowSourceCode config); [|constructor].
  flatten. styling. apply styled_app; [|styling].
  apply (write_each_styled _ _ _ _ (source_line_styled _) Hlines).
Qed.

Lemma context_entry_styled (kv : string * value) :
  esc_free kv.1 = true /\ esc_free (show kv.2) = true ->
  styled is_escape (context_entry_text colored kv) (context_entry_text plain kv).
Proof.
  intros [Hk Hv]. unfold context_entry_text. flatten. styling.
Qed.

Lemma context_styled info order :
  unstyled info -> visits (ErrorInfo.Context info) order ->
  styled is_escape (context_block colored info order) (context_block plain info order).
Proof.
  intros (_ & _ & _ & _ & _ & _ & Hctx) Hvisits. unfold context_block.
  destruct (0 <? size (ErrorInfo.Context info))%nat; [|constructor].
  flatten. styling. apply styled_app; [|styling].
  apply (write_each_styled _ _ _ _ context_entry_styled).
  apply Forall_forall. intros [k v] Hin. apply (Hctx k v).
  apply elem_of_map_to_list. unfold visits in Hvisits. by rewrite <- Hvisits.
Qed.

Lemma suggestion_styled info :
  unstyled info ->
  styled is_escape (suggestion_block colored info) (suggestion_block plain info).
Proof.
  intros (_ & _ & _ & Hsuggestion & _). unfold suggestion_block.
  cbn [ShowSuggestions with_colors].
  destruct (ShowSuggestions config && negb (is_empty (ErrorInfo.Suggestion info)));
    [|constructor].
  flatten. styling.
Qed.

Lemma frames_styled frames i :
  Forall (fun f => esc_free (StackFrame.Function f) = true /\
                   esc_free (StackFrame.File f) = true) frames ->
  styled is_escape (frames_text colored i frames) (frames_text plain i frames).
Proof.
  intros Hall. revert i. induction Hall as [|frame frames [Hfn Hfile] Hall IH]; intros i;
    [constructor|].
  cbn [frames_text]. apply styled_app; [|apply IH].
  unfold frame_text. flatten. styling.
Qed.

Lemma stack_styled info :
  unstyled info ->
  styled is_escape (stack_block colored info) (stack_block plain info).
Proof.
  intros (_ & _ & _ & _ & _ & Hstack & _). unfold stack_block.
  cbn [ShowStackTrace with_colors].
  destruct (ShowStackTrace config && (0 <? length (ErrorInfo.Stack info))%nat);
    [|constructor].
  flatten. styling. apply styled_app; [|styling].
  by apply frames_styled.
Qed.

Lemma render_styled info order :
  unstyled info -> visits (ErrorInfo.Context info) order ->
  styled is_escape (render colored info order) (render plain info order).
Proof.
  intros Hinfo Hvisits. unfold render.
  apply styled_app; [by apply header_styled|].
  apply styled_app; [by apply location_styled|].
  apply styled_app; [by apply source_styled|].
  apply styled_app; [by apply context_styled|].
  apply styled_app; [by apply suggestion_styled|by apply stack_styled].
Qed.

End RenderStyled.

Lemma write_each_fmap {A} (f : A -> string) (l : list A) :
  write_each f l = write_each (fun s => s) (f <$> l).
Proof. induction l as [|x l IH]; [reflexivity|]. simpl. by rewrite IH. Qed.

Lemma visits_same (m : gmap string value) o1 o2 :
  visits m o1 -> visits m o2 -> o1 ≡ₚ o2.
Proof. unfold visits. intros -> ->. reflexivity. Qed.

Lemma visits_small (m : gmap string value) o1 o2 :
  (size m <= 1)%nat -> visits m o1 -> visits m o2 -> o1 = o2.
Proof.
  unfold visits. intros Hsize H1 H2.
  rewrite <- length_map_to_list in Hsize.
  destruct (map_to_list m) as [|x [|y l]]; simpl in Hsize; [| |lia].
  - apply Permutation_nil_r in H1, H2. congruence.
  - apply Permutation_singleton_r in H1, H2. congruence.
Qed.

Lemma render_split (config : ErrorConfig) (info : ErrorInfo.t)
    (order : list (string * value)) :
  visits (ErrorInfo.Context info) order ->
  render config info order =
  report_head config info +:+ write_each (context_entry_text config) order +:+
  report_tail config info.
Proof.
  intros V. unfold render, context_block, report_head, report_tail.
  destruct (0 <? size (ErrorInfo.Context info))%nat eqn:Hsize.
  - rewrite !append_assoc. reflexivity.
  - assert (ErrorInfo.Context info = ∅) as Hempty.
    { apply map_size_empty_iff. apply Nat.ltb_ge in Hsize. lia. }
    unfold visits in V. rewrite Hempty, map_to_list_empty in V.
    apply Permutation_nil_r in V. subst order.
    rewrite !append_assoc. reflexivity.
Qed.

(** C5 (as amended).  The report of a record under a configuration is
    determined once the order in which the runtime visits the context map is.
    Every report is [report_head], then one line for each context entry in
    the order visited, then [report_tail]; head and tail are functions of
    configuration and record alone.  So any two reports of the same record
    have the same text before and after the context lines and the same
    context lines, one for each entry of the map, in two orders; they are
    identical whenever the context has at most one entry; and every order of
    the entries is the report of some visit.  The order of the context lines
    itself is the runtime's, not a function of record and configuration. *)
Theorem render_fixed_up_to_context_order (config : ErrorConfig) (info : ErrorInfo.t)
    (out1 out2 : string) :
  renders config info out1 -> renders config info out2 ->
  (exists order1 order2,
      visits (ErrorInfo.Context info) order1 /\
      visits (ErrorInfo.Context info) order2 /\
      order1 ≡ₚ order2 /\
      out1 = report_head config info +:+
             write_each (context_entry_text config) order1 +:+
             report_tail config info /\
      out2 = report_head config info +:+
             write_each (context_entry_text config) order2 +:+
             report_tail config info)
  /\ ((size (ErrorInfo.Context info) <= 1)%nat -> out1 = out2)
  /\ (forall order, order ≡ₚ map_to_list (ErrorInfo.Context info) ->
        renders config info
          (report_head config info +:+ write_each (context_entry_text config) order +:+
           report_tail config info)).
Proof.
  intros (o1 & V1 & ->) (o2 & V2 & ->). split; [|split].
  - exists o1, o2. split; [exact V1|]. split; [exact V2|].
    split; [exact (visits_same _ _ _ V1 V2)|].
    split; by apply render_split.
  - intros Hsize. by rewrite (visits_small _ o1 o2 Hsize V1 V2).
  - intros order Horder. exists order. split; [exact Horder|].
    symmetry. by apply render_split.
Qed.

Lemma two_keys_visits order :
  order ≡ₚ [("user_id", VInt 12345); ("operation", VString "update")] ->
  visits (ErrorInfo.Context Scenarios.two_keys) order.
Proof.
  intros Horder. unfold visits, Scenarios.two_keys. cbn [ErrorInfo.Context].
  rewrite Horder, map_to_list_insert by reflexivity.
  rewrite map_to_list_singleton. reflexivity.
Qed.

(** The two reports of the record with two context entries: the same head
    and tail around the lines of "user_id" and "operation", in either order. *)
Lemma render_fixed_up_to_context_order_witness :
  exists order1 order2,
    visits (ErrorInfo.Context Scenarios.two_keys) order1 /\
    visits (ErrorInfo.Context Scenarios.two_keys) order2 /\
    order1 ≡ₚ order2 /\
    render Scenarios.plain Scenarios.two_keys
      [("user_id", VInt 12345); ("operation", VString "update")] =
      report_head Scenarios.plain Scenarios.two_keys +:+
      write_each (context_entry_text Scenarios.plain) order1 +:+
      report_tail Scenarios.plain Scenarios.two_keys /\
    render Scenarios.plain Scenarios.two_keys
      [("operation", VString "update"); ("user_id", VInt 12345)] =
      report_head Scenarios.plain Scenarios.two_keys +:+
      write_each (context_entry_text Scenarios.plain) order2 +:+
      report_tail Scenarios.plain Scenarios.two_keys.
Proof.
  apply (render_fixed_up_to_context_order Scenarios.plain Scenarios.two_keys).
  - eexists. split; [|reflexivity]. apply two_keys_visits. reflexivity.
  - eexists. split; [|reflexivity]. apply two_keys_visits. apply perm_swap.
Defined.

(** C5 (as stated) fails: a record with two context entries has two
    different reports under one configuration, one for each order in which
    [range] may visit the map. *)
Lemma context_order_changes_the_report :
  exists out1 out2,
    renders Scenarios.plain Scenarios.two_keys out1 /\
    renders Scenarios.plain Scenarios.two_keys out2 /\
    out1 <> out2.
Proof.
  exists (render Scenarios.plain Scenarios.two_keys
            [("user_id", VInt 12345); ("operation", VString "update")]),
         (render Scenarios.plain Scenarios.two_keys
            [("operation", VString "update"); ("user_id", VInt 12345)]).
  split; [|split].
  - eexists. split; [|reflexivity]. apply two_keys_visits. reflexivity.
  - eexists. split; [|reflexivity]. apply two_keys_visits. apply perm_swap.
  - intros Heq. vm_compute in Heq. discriminate Heq.
Qed.

Lemma with_colors_same config : with_colors (UseColors config) config = config.
Proof. destruct config. reflexivity. Qed.

(** C4 (as amended).  For a record none of whose texts holds an escape
    character, stripping the colour codes from the report rendered with
    colours gives exactly the report rendered without colours for the same
    order of the context entries.  Each rendering visits the context map
    afresh: against a report without colours made in another visit, with
    another order, the stripped text has the same head and tail and the same
    context lines in its own order, and the two are identical whenever the
    context has at most one entry.  Stripping leaves a report without colours
    as it is, and no colour code occurs in it.  [logToFile] always appends
    the stripped copy of the message it is given; so for such a record the
    text [handleError] appends to the log file is the report without colours
    in the order of that call, whatever the colour switch. *)
Theorem colors_are_presentation_only (env : Env) (e : ErrorCatcher)
    (info : ErrorInfo.t) (w : World) (order1 order2 : list (string * value)) :
  fair_range env -> unstyled info ->
  visits (ErrorInfo.Context info) order1 -> visits (ErrorInfo.Context info) order2 ->
  let config := getConfig e in
  let colored := with_colors true config in
  let plain := with_colors false config in
  stripANSI (render colored info order1) = render plain info order1
  /\ (order1 ≡ₚ order2
      /\ stripANSI (render colored info order1) =
         report_head plain info +:+ write_each (context_entry_text plain) order1 +:+
         report_tail plain info
      /\ render plain info order2 =
         report_head plain info +:+ write_each (context_entry_text plain) order2 +:+
         report_tail plain info)
  /\ ((size (ErrorInfo.Context info) <= 1)%nat ->
      stripANSI (render colored info order1) = render plain info order2)
  /\ stripANSI (render plain info order2) = render plain info order2
  /\ (forall tok, is_escape tok -> Contains (render plain info order2) tok = false)
  /\ (forall filename message, locked w filename = false ->
        files (logToFile filename message w) !! filename =
        Some (default "" (files w !! filename) +:+ stripANSI message))
  /\ (is_empty (LogToFile config) = false -> locked w (LogToFile config) = false ->
        files (world_of (handleError env e info w)) !! LogToFile config =
        Some (default "" (files w !! LogToFile config) +:+
              render plain info (range env (ErrorInfo.Context info)))).
Proof.
  intros Hfair Hinfo V1 V2 config colored plain.
  pose proof (render_styled config info order1 Hinfo V1) as Hstyled1.
  pose proof (render_styled config info order2 Hinfo V2) as Hstyled2.
  pose proof (render_styled config info _ Hinfo (Hfair (ErrorInfo.Context info)))
    as Hstyled.
  fold colored plain in Hstyled1, Hstyled2, Hstyled.
  pose proof (styled_plain_side _ _ _ Hstyled2) as Hfree.
  assert (stripANSI (render colored info order1) = render plain info order1) as Hcolored
    by (apply stripANSI_styled, Hstyled1).
  split; [exact Hcolored|].
  split.
  { split; [exact (visits_same _ _ _ V1 V2)|].
    rewrite Hcolored. split; by apply render_split. }
  split.
  { intros Hsize. rewrite Hcolored. by rewrite (visits_small _ order1 order2 Hsize V1 V2). }
  split; [apply stripANSI_styled, styled_plain, Hfree|].
  split; [intros tok Htok; by apply esc_free_no_escape|].
  split.
  { intros filename message Hopen. unfold logToFile. rewrite Hopen.
    cbn [files]. apply lookup_insert_eq. }
  intros Hpath Hopen. unfold handleError. fold config. rewrite Hpath.
  assert (stripANSI (render config info (range env (ErrorInfo.Context info))) =
          render plain info (range env (ErrorInfo.Context info))) as Hmessage.
  { rewrite <- (with_colors_same config) at 1.
    destruct (UseColors config).
    - apply stripANSI_styled, Hstyled.
    - apply stripANSI_styled, styled_plain, (styled_plain_side _ _ _ Hstyled). }
  destruct (ExitOnError config); cbn [world_of];
    unfold logToFile; cbn [locked files stderr]; rewrite Hopen; cbn [files];
    rewrite lookup_insert_eq, Hmessage; reflexivity.
Qed.

Lemma two_keys_unstyled : unstyled Scenarios.two_keys.
Proof.
  unfold unstyled, Scenarios.two_keys.
  cbn [ErrorInfo.Error ErrorInfo.ErrorCode ErrorInfo.File ErrorInfo.Suggestion
       ErrorInfo.SourceLines ErrorInfo.Stack ErrorInfo.Context].
  do 4 (split; [reflexivity|]). do 2 (split; [constructor|]).
  apply map_Forall_insert_2; [split; reflexivity|].
  apply map_Forall_singleton. split; reflexivity.
Qed.

(** The record with two context entries, reported by a catcher with colours
    on that logs to errors.log: stripping the coloured report that lists
    "user_id" first gives the report without colours that lists "user_id"
    first, and the log receives the report without colours in the order of
    the call. *)
Lemma colors_are_presentation_only_witness :
  stripANSI (render (with_colors true (getConfig Scenarios.logging)) Scenarios.two_keys
               [("user_id", VInt 12345); ("operation", VString "update")]) =
    render (with_colors false (getConfig Scenarios.logging)) Scenarios.two_keys
      [("user_id", VInt 12345); ("operation", VString "update")]
  /\ files (world_of (handleError Scenarios.env_quiet Scenarios.logging Scenarios.two_keys
                        Scenarios.fresh_world)) !! "errors.log" =
     Some ("" +:+ render (with_colors false (getConfig Scenarios.logging)) Scenarios.two_keys
                    (range Scenarios.env_quiet (ErrorInfo.Context Scenarios.two_keys))).
Proof.
  pose proof (colors_are_presentation_only Scenarios.env_quiet Scenarios.logging
                Scenarios.two_keys Scenarios.fresh_world
                [("user_id", VInt 12345); ("operation", VString "update")]
                [("operation", VString "update"); ("user_id", VInt 12345)]
                (range_is_fair_in_scenarios _ _) two_keys_unstyled
                (two_keys_visits _ (reflexivity _))
                (two_keys_visits _ (perm_swap _ _ _))) as P.
  cbv zeta in P. destruct P as (P1 & _ & _ & _ & _ & _ & P).
  split; [exact P1|]. apply P; reflexivity.
Defined.

(** C4 (as stated) fails for a record whose own text holds colour codes.
    A message with a red code in it is printed as it is without colours but
    loses the code when the coloured report is stripped; and a message with
    a reset code wrapped inside the pieces of another one leaves a reset code
    behind in the stripped text, which is what the log file receives.  It
    fails as well, for a record free of codes, when the two renderings visit
    the context map in different orders. *)
Lemma codes_in_the_message_break_stripping :
  stripANSI (render (with_colors true Scenarios.plain) Scenarios.painted []) <>
    render (with_colors false Scenarios.plain) Scenarios.painted []
  /\ Contains (stripANSI (render (with_colors true Scenarios.plain) Scenarios.nested []))
       Reset = true
  /\ Contains (stripANSI (render (with_colors false Scenarios.plain) Scenarios.nested []))
       Reset = true
  /\ (exists logged,
       files (world_of (handleError Scenarios.env_quiet Scenarios.logging Scenarios.nested
                          Scenarios.fresh_world)) !! "errors.log" = Some logged
       /\ Contains logged Reset = true)
  /\ (unstyled Scenarios.two_keys
      /\ visits (ErrorInfo.Context Scenarios.two_keys)
           [("user_id", VInt 12345); ("operation", VString "update")]
      /\ visits (ErrorInfo.Context Scenarios.two_keys)
           [("operation", VString "update"); ("user_id", VInt 12345)]
      /\ stripANSI (render (with_colors true Scenarios.plain) Scenarios.two_keys
                      [("user_id", VInt 12345); ("operation", VString "update")]) <>
         render (with_colors false Scenarios.plain) Scenarios.two_keys
           [("operation", VString "update"); ("user_id", VInt 12345)]).
Proof.
  split; [intros Heq; vm_compute in Heq; discriminate Heq|].
  split; [vm_compute; reflexivity|].
  split; [vm_compute; reflexivity|].
  split; [eexists; split; [vm_compute; reflexivity|vm_compute; reflexivity]|].
  split; [exact two_keys_unstyled|].
  split; [apply two_keys_visits; reflexivity|].
  split; [apply two_keys_visits, perm_swap|].
  intros Heq. vm_compute in Heq. discriminate Heq.
Qed.

(** ** The pipeline on the examples of the repository *)

(** The failure of tests/test2.go: opening a file that does not exist. *)
Example missing_file_is_FS001 :
  @generateSmartErrorCode ascii_tables
    (mkError "open nonexistent_file.txt: no such file or directory") = "FS001"
  /\ @generateSmartSuggestion ascii_tables
       (mkError "open nonexistent_file.txt: no such file or directory") =
     "verify the file path exists, check for typos, or create the file first".
Proof. split; vm_compute; reflexivity. Qed.

(** The report of the record with two context entries, without colours,
    when the runtime visits "user_id" first. *)
Example report_of_two_keys :
  render Scenarios.plain Scenarios.two_keys
    [("user_id", VInt 12345); ("operation", VString "update")] =
  "error[GEN000]: user 12345 not found in database" +:+ nl +:+
  " --> main.go:170" +:+ nl +:+
  "  = context:" +:+ nl +:+
  "    user_id: 12345" +:+ nl +:+
  "    operation: update" +:+ nl +:+
  nl +:+
  "  = help: check the error context, consult documentation, or add debug logging" +:+ nl +:+
  nl.
Proof. vm_compute. reflexivity. Qed.

(** [filepath.Base] and the clean-up of function names on typical inputs. *)
Example base_and_function_names :
  Base "/home/dev/app/main.go" = "main.go"
  /\ Base "dir/sub//" = "sub"
  /\ Base "" = "."
  /\ Base "///" = "/"
  /\ strip_package_path "github.com/00msjr/catch.Err" = "catch.Err"
  /\ strip_package_path "main.main" = "main.main".
Proof. vm_compute. repeat split. Qed.

(** * Further properties of the code *)

(** ** Classifier and configuration *)

Lemma lower_byte_idem c : lower_byte (lower_byte c) = lower_byte c.
Proof. destruct c as [[] [] [] [] [] [] [] []]; reflexivity. Qed.

Lemma lower_byte_ascii c : is_ascii_byte (lower_byte c) = is_ascii_byte c.
Proof. destruct c as [[] [] [] [] [] [] [] []]; reflexivity. Qed.

Lemma map_lower_idem s : map_bytes lower_byte (map_bytes lower_byte s) = map_bytes lower_byte s.
Proof. induction s as [|c s IH]; [reflexivity|]. simpl. by rewrite lower_byte_idem, IH. Qed.

Lemma isASCII_map_lower s : isASCII (map_bytes lower_byte s) = isASCII s.
Proof. induction s as [|c s IH]; [reflexivity|]. simpl. by rewrite lower_byte_ascii, IH. Qed.

Lemma ToLower_ascii `{Unicode} s : isASCII s = true -> ToLower s = map_bytes lower_byte s.
Proof. intros Hs. unfold ToLower. by rewrite Hs. Qed.

Lemma map_bytes_app f a b : map_bytes f (a +:+ b) = map_bytes f a +:+ map_bytes f b.
Proof. induction a as [|c a IH]; [reflexivity|]. rewrite append_cons. simpl. rewrite IH. reflexivity. Qed.

Lemma isASCII_app a b : isASCII (a +:+ b) = isASCII a && isASCII b.
Proof. induction a as [|c a IH]; [reflexivity|]. rewrite append_cons. simpl. rewrite IH. by rewrite andb_assoc. Qed.

Lemma prefix_empty s : String.prefix "" s = true.
Proof. destruct s; reflexivity. Qed.

Lemma prefix_app p m b : String.prefix p m = true -> String.prefix p (m +:+ b) = true.
Proof.
  revert m. induction p as [|c p IH]; intros m Hp; [apply prefix_empty|].
  destruct m as [|d m]; [discriminate Hp|].
  rewrite append_cons. cbn [String.prefix] in *.
  destruct (ascii_dec c d); [auto|discriminate Hp].
Qed.

Lemma Contains_app_r m b p : Contains m p = true -> Contains (m +:+ b) p = true.
Proof.
  induction m as [|c m IH]; intros Hc.
  - cbn [Contains] in Hc. rewrite orb_false_r in Hc.
    destruct p; [|discriminate Hc]. destruct b; reflexivity.
  - rewrite append_cons. cbn [Contains] in *.
    apply orb_true_iff in Hc as [Hp|Hc].
    + rewrite <- append_cons. rewrite (prefix_app _ _ _ Hp). reflexivity.
    + rewrite (IH Hc). apply orb_true_r.
Qed.

Lemma Contains_app_l a m p : Contains m p = true -> Contains (a +:+ m) p = true.
Proof.
  intros Hc. induction a as [|c a IH]; [exact Hc|].
  rewrite append_cons. cbn [Contains]. rewrite IH. apply orb_true_r.
Qed.

Lemma Contains_inside a m b p :
  Contains m p = true -> Contains (a +:+ m +:+ b) p = true.
Proof. intros Hc. by apply Contains_app_l, Contains_app_r. Qed.

(** X1.  Classification ignores the case of ASCII letters: two ASCII
    messages that agree once lower-cased get the same code and the same
    suggestion, and a message is classified like its lower-cased copy. *)
Theorem classification_ignores_ascii_case `{Unicode} (e1 e2 : error) :
  isASCII (Error e1) = true -> isASCII (Error e2) = true ->
  map_bytes lower_byte (Error e1) = map_bytes lower_byte (Error e2) ->
  generateSmartErrorCode e1 = generateSmartErrorCode e2
  /\ generateSmartSuggestion e1 = generateSmartSuggestion e2
  /\ generateSmartErrorCode (mkError (map_bytes lower_byte (Error e1))) =
     generateSmartErrorCode e1.
Proof.
  intros H1 H2 Heq.
  rewrite !code_scan, !suggestion_scan. cbn [Error].
  rewrite (ToLower_ascii (Error e1) H1), (ToLower_ascii (Error e2) H2).
  rewrite ToLower_ascii by (by rewrite isASCII_map_lower).
  rewrite map_lower_idem, Heq. repeat split.
Qed.

(** Two spellings of one permission failure. *)
Lemma classification_ignores_ascii_case_witness :
  @generateSmartErrorCode ascii_tables (mkError "Permission Denied: /etc/shadow") =
  @generateSmartErrorCode ascii_tables (mkError "PERMISSION DENIED: /etc/Shadow").
Proof.
  apply (@classification_ignores_ascii_case ascii_tables
           (mkError "Permission Denied: /etc/shadow")
           (mkError "PERMISSION DENIED: /etc/Shadow")); reflexivity.
Defined.

(** X2.  Text added around an ASCII message (a prefix such as the one [F],
    [Wrap] and [Errf] put in front, or a suffix) never turns a classified
    message into a generic one, and a message classified as a missing file
    (FS001, the first pattern) stays so. *)
Theorem surrounding_text_keeps_a_classification `{Unicode} (before msg after : string) :
  isASCII before = true -> isASCII msg = true -> isASCII after = true ->
  (generateSmartErrorCode (mkError msg) <> generic_code ->
   generateSmartErrorCode (mkError (before +:+ msg +:+ after)) <> generic_code)
  /\ (generateSmartErrorCode (mkError msg) = "FS001" ->
      generateSmartErrorCode (mkError (before +:+ msg +:+ after)) = "FS001").
Proof.
  intros Hb Hm Ha.
  assert (ToLower (before +:+ msg +:+ after) =
          map_bytes lower_byte before +:+ ToLower msg +:+ map_bytes lower_byte after)
    as Hlower.
  { rewrite (ToLower_ascii msg Hm), ToLower_ascii
      by (by rewrite !isASCII_app, Hb, Hm, Ha).
    by rewrite !map_bytes_app. }
  rewrite !code_scan. cbn [Error]. rewrite Hlower.
  generalize (map_bytes lower_byte before) (map_bytes lower_byte after) (ToLower msg).
  intros a b text. split.
  - intros Hcode Hgen. apply Hcode.
    destruct (first_match code_table (a +:+ text +:+ b)) as [[p o]|] eqn:Hm2.
    + destruct (answer_of_code_table (a +:+ text +:+ b)) as [_ Hsome].
      cbv zeta in Hsome. destruct (Hsome p o Hm2) as [_ Hne].
      simpl in Hgen. contradiction.
    + assert (first_match code_table text = None) as ->; [|reflexivity].
      apply first_match_none. intros pat Hin.
      destruct (Contains text pat) eqn:E; [|reflexivity].
      rewrite <- (proj1 (first_match_none code_table _) Hm2 pat Hin).
      symmetry. by apply Contains_inside.
  - unfold code_table. cbn [first_match].
    destruct (Contains text "no such file") eqn:E.
    + intros _. by rewrite (Contains_inside a text b _ E).
    + repeat lazymatch goal with
             | |- answer _ (if ?c then _ else _) = _ -> _ =>
                 destruct c; [cbn [answer]; discriminate|]
             end.
      cbn [answer]. discriminate.
Qed.

(** The wrapped failure of a missing file is still a missing file. *)
Lemma surrounding_text_keeps_a_classification_witness :
  @generateSmartErrorCode ascii_tables
    (mkError ("failed to load settings: " +:+ "open app.toml: no such file or directory"
              +:+ " (attempt 2)")) = "FS001".
Proof.
  apply (@surrounding_text_keeps_a_classification ascii_tables
           "failed to load settings: " "open app.toml: no such file or directory"
           " (attempt 2)"); reflexivity.
Defined.

(** X3.  No entry of either switch is dead: a message that consists of a
    pattern alone gets the code, and the suggestion, written next to that
    pattern; and the suggestion is never the empty text. *)
Theorem no_pattern_is_shadowed `{Unicode} :
  Forall (fun entry => generateSmartErrorCode (mkError entry.1) = entry.2) code_table
  /\ Forall (fun entry => generateSmartSuggestion (mkError entry.1) = entry.2)
       suggestion_table
  /\ forall err, generateSmartSuggestion err <> "".
Proof.
  split; [|split].
  - unfold code_table. repeat (constructor; [reflexivity|]). constructor.
  - unfold suggestion_table. repeat (constructor; [reflexivity|]). constructor.
  - intros err. unfold generateSmartSuggestion.
    repeat lazymatch goal with
           | |- (if ?c then _ else _) <> _ => destruct c; [discriminate|]
           end.
    discriminate.
Qed.

(** X4.  A configuration whose [MaxStackDepth] is 0 is discarded as a
    whole: [getConfig] returns the package variable [DefaultConfig] in its
    place.  With [current] the value that variable holds at the time of the
    call, the catcher reports under [current] after [Configure], whatever
    the fields of the configuration given, and the report exits with status
    1 exactly when [current] has [ExitOnError] set, as the declared
    [DefaultConfig] has.  Any other configuration is used as given.
    [getConfig] and [handleError] are these readings at the declared
    default. *)
Theorem zero_depth_configuration_is_discarded (current : ErrorConfig) (env : Env)
    (e : ErrorCatcher) (config : ErrorConfig) (info : ErrorInfo.t) (w : World) :
  (MaxStackDepth config = 0%Z ->
     getConfigFrom current (Configure e config) = current
     /\ dispatch env (getConfigFrom current (Configure e config)) info w =
        dispatch env current info w
     /\ exists w',
          dispatch env (getConfigFrom current (Configure e config)) info w =
          if ExitOnError current then Exited w' 1%Z else Returned w' tt)
  /\ (MaxStackDepth config <> 0%Z -> getConfigFrom current (Configure e config) = config)
  /\ getConfig e = getConfigFrom DefaultConfig e
  /\ handleError env e info w = dispatch env (getConfig e) info w
  /\ ExitOnError DefaultConfig = true.
Proof.
  split; [|split; [|repeat split]].
  - intros Hzero.
    assert (getConfigFrom current (Configure e config) = current) as Hcfg.
    { unfold getConfigFrom, Configure. cbn [Config]. by rewrite Hzero. }
    split; [exact Hcfg|]. rewrite Hcfg. split; [reflexivity|].
    unfold dispatch. destruct (ExitOnError current); eexists; reflexivity.
  - intros Hne. unfold getConfigFrom, Configure. cbn [Config].
    destruct (Z.eqb_spec (MaxStackDepth config) 0); [contradiction|reflexivity].
Qed.

(** A configuration that asks not to exit, with the depth left at zero: the
    report exits all the same while [DefaultConfig] is as declared, and
    returns once the variable holds a configuration that does not exit. *)
Lemma zero_depth_configuration_is_discarded_witness :
  (exists w', dispatch Scenarios.env_quiet
                (getConfigFrom DefaultConfig
                   (Configure {| Config := DefaultConfig |} quiet_but_depth_zero))
                Scenarios.two_keys Scenarios.fresh_world = Exited w' 1%Z)
  /\ (exists w', dispatch Scenarios.env_quiet
                   (getConfigFrom (Config Scenarios.logging)
                      (Configure {| Config := DefaultConfig |} quiet_but_depth_zero))
                   Scenarios.two_keys Scenarios.fresh_world = Returned w' tt).
Proof.
  split.
  - destruct (zero_depth_configuration_is_discarded DefaultConfig Scenarios.env_quiet
                {| Config := DefaultConfig |} quiet_but_depth_zero
                Scenarios.two_keys Scenarios.fresh_world) as [Hzero _].
    destruct (Hzero eq_refl) as (_ & _ & Hexit). exact Hexit.
  - destruct (zero_depth_configuration_is_discarded (Config Scenarios.logging)
                Scenarios.env_quiet {| Config := DefaultConfig |} quiet_but_depth_zero
                Scenarios.two_keys Scenarios.fresh_world) as [Hzero _].
    destruct (Hzero eq_refl) as (_ & _ & Hexit). exact Hexit.
Defined.

(** ** Explicit context and chains *)

Lemma copy_entries_union (order : list (string * value)) (ctx : gmap string value) :
  copy_entries order ctx = list_to_map (reverse order) ∪ ctx.
Proof.
  revert ctx. induction order as [|[k v] rest IH]; intros ctx.
  - simpl. by rewrite (left_id_L ∅ (∪)).
  - unfold copy_entries in *. cbn [foldl fst snd]. rewrite IH.
    rewrite reverse_cons, list_to_map_app. cbn [list_to_map foldr uncurry].
    rewrite insert_empty, <- (assoc_L (∪)), <- insert_union_singleton_l. reflexivity.
Qed.

Lemma copy_entries_visits (m ctx : gmap string value) order :
  visits m order -> copy_entries order ctx = m ∪ ctx.
Proof.
  intros Hv. rewrite copy_entries_union.
  rewrite (visits_list_to_map m (reverse order)); [reflexivity|].
  unfold visits in *. by rewrite reverse_Permutation.
Qed.

(** X5.  A single map argument is copied entry by entry into the context,
    in whatever order the runtime visits it: the result is the argument over
    the previous context. *)
Theorem map_argument_is_copied `{Unicode} (env : Env) (ctx m : gmap string value)
    (shown : string) :
  fair_range env ->
  parseProvidedContext env ctx [VMap m shown] = m ∪ ctx
  /\ (forall k v, m !! k = Some v ->
        parseProvidedContext env ctx [VMap m shown] !! k = Some v)
  /\ (forall k, m !! k = None ->
        parseProvidedContext env ctx [VMap m shown] !! k = ctx !! k).
Proof.
  intros Hfair.
  assert (parseProvidedContext env ctx [VMap m shown] = m ∪ ctx) as ->.
  { unfold parseProvidedContext. apply copy_entries_visits, Hfair. }
  split; [reflexivity|]. split.
  - intros k v Hk. by apply lookup_union_Some_l.
  - intros k Hk. by apply lookup_union_r.
Qed.

Lemma chain_fold (c0 : ContextualCatcher) (more : list (string * value)) :
  let c := foldl (fun c kv => ContextualCatcher_WithContext c kv.1 kv.2) c0 more in
  catcher c = catcher c0 /\ context c = copy_entries more (context c0).
Proof.
  revert c0. induction more as [|[k v] more IH]; intros c0; [split; reflexivity|].
  cbn [foldl]. destruct (IH (ContextualCatcher_WithContext c0 k v)) as [Hc Hctx].
  cbv zeta in *. cbn [fst snd] in *. rewrite Hc, Hctx. split; reflexivity.
Qed.

(** A map with one entry, copied over a context that has another key. *)
Lemma map_argument_is_copied_witness :
  @parseProvidedContext ascii_tables Scenarios.env_quiet {[ "op" := VString "read" ]}
    [VMap {[ "file" := VString "a.txt" ]} "map[file:a.txt]"] =
  {[ "file" := VString "a.txt" ]} ∪ {[ "op" := VString "read" ]}.
Proof.
  apply (@map_argument_is_copied ascii_tables Scenarios.env_quiet).
  apply range_is_fair_in_scenarios.
Defined.

(** X6.  A chain of [WithContext] calls keeps the catcher it started from
    and, for each key, the value given last; its context has exactly the keys
    given. *)
Theorem chain_keeps_the_last_value (e : ErrorCatcher) (first : string * value)
    (more : list (string * value)) :
  catcher (chain e first more) = e
  /\ context (chain e first more) = list_to_map (reverse (first :: more))
  /\ (forall k v, context (chain e first (more ++ [(k, v)])) !! k = Some v)
  /\ (forall k v j, j <> k ->
        context (chain e first (more ++ [(k, v)])) !! j =
        context (chain e first more) !! j)
  /\ (forall k, is_Some (context (chain e first more) !! k) <->
                k ∈ (first :: more).*1).
Proof.
  assert (forall l, context (chain e first l) = list_to_map (reverse (first :: l)))
    as Hctx.
  { intros l. unfold chain.
    destruct (chain_fold (ErrorCatcher_WithContext e first.1 first.2) l) as [_ ->].
    rewrite copy_entries_union. unfold ErrorCatcher_WithContext. cbn [context].
    rewrite reverse_cons, list_to_map_app. destruct first as [k0 v0].
    cbn [list_to_map foldr uncurry fst snd]. by rewrite insert_empty. }
  split; [|split; [apply Hctx|split; [|split]]].
  - unfold chain.
    by destruct (chain_fold (ErrorCatcher_WithContext e first.1 first.2) more) as [-> _].
  - intros k v. rewrite Hctx. rewrite app_comm_cons, reverse_app.
    cbn [reverse rev_append app list_to_map foldr uncurry]. apply lookup_insert_eq.
  - intros k v j Hne. rewrite !Hctx. rewrite app_comm_cons, reverse_app.
    cbn [reverse rev_append app list_to_map foldr uncurry].
    by rewrite lookup_insert_ne.
  - intros k. rewrite Hctx. rewrite <- elem_of_dom, dom_list_to_map_L.
    rewrite elem_of_list_to_set, fmap_reverse, elem_of_reverse. reflexivity.
Qed.

(** ** Function names and stack inference *)

Section NamesAndStacks.
Local Open Scope Z_scope.

Lemma prefix_slash c s : String.prefix "/" (String c s) = is_slash c.
Proof.
  cbn [String.prefix]. unfold is_slash.
  destruct (ascii_dec "/" c) as [<-|Hne].
  - by rewrite prefix_empty, Ascii.eqb_refl.
  - symmetry. apply Ascii.eqb_neq. congruence.
Qed.

Lemma last_slash s i :
  0 <= i ->
  let r := last_index_from i s "/" in
  (r = -1 /\ Contains s "/" = false)
  \/ (i <= r /\ Contains s "/" = true /\ exists pre,
        s = pre +:+ slice_from (Z.to_nat (r - i + 1)) s /\
        Contains (slice_from (Z.to_nat (r - i + 1)) s) "/" = false).
Proof.
  revert i. induction s as [|c s IH]; intros i Hi; [left; split; reflexivity|].
  cbn [last_index_from]. cbv zeta. rewrite prefix_slash.
  destruct (IH (i + 1) ltac:(lia)) as [[Hr Hc]|[Hr (Hyes & pre & Hpre & Hc)]];
    cbv zeta in *.
  - rewrite Hr. change (0 <=? -1) with false. cbv iota.
    destruct (is_slash c) eqn:Hs.
    + right. split; [lia|]. replace (i - i + 1) with 1 by lia.
      split; [cbn [Contains]; by rewrite prefix_slash, Hs|].
      exists (String c ""). split; [reflexivity|exact Hc].
    + left. split; [reflexivity|].
      cbn [Contains]. by rewrite prefix_slash, Hs, Hc.
  - replace (0 <=? last_index_from (i + 1) s "/") with true.
    2:{ symmetry. apply Z.leb_le. lia. }
    right. split; [lia|].
    split; [cbn [Contains]; rewrite Hyes; apply orb_true_r|].
    replace (Z.to_nat (last_index_from (i + 1) s "/" - i + 1))
      with (S (Z.to_nat (last_index_from (i + 1) s "/" - (i + 1) + 1))) by lia.
    cbn [slice_from]. exists (String c pre). split; [|exact Hc].
    rewrite append_cons. by rewrite <- Hpre.
Qed.

Lemma strip_package_path_keeps_the_tail (funcName : string) :
  Contains (strip_package_path funcName) "/" = false
  /\ (exists pre, funcName = pre +:+ strip_package_path funcName)
  /\ (Contains funcName "/" = false -> strip_package_path funcName = funcName).
Proof.
  unfold strip_package_path, LastIndex.
  destruct (last_slash funcName 0 ltac:(lia))
    as [[Hr Hc]|[Hr (Hyes & pre & Hpre & Hc)]]; cbv zeta in *.
  - rewrite Hr. change (0 <=? -1) with false. cbv iota.
    split; [exact Hc|]. split; [by exists ""|reflexivity].
  - replace (0 <=? last_index_from 0 funcName "/") with true
      by (symmetry; apply Z.leb_le; lia).
    replace (last_index_from 0 funcName "/" - 0 + 1)
      with (last_index_from 0 funcName "/" + 1) in * by lia.
    split; [exact Hc|]. split; [by exists pre|].
    intros Hnone. congruence.
Qed.

Lemma trace_loop_keeps (P : StackFrame.t -> Prop) stack bound fuel i acc :
  (forall fr, P (frame_of fr)) -> Forall P acc ->
  Forall P (trace_loop stack bound fuel i acc).
Proof.
  intros HP. revert i acc. induction fuel as [|fuel IH]; intros i acc Hacc; [exact Hacc|].
  cbn [trace_loop]. destruct (i <? bound); [|exact Hacc].
  destruct (runtime_Caller stack i) as [fr|]; [|exact Hacc].
  apply IH. apply Forall_app. split; [exact Hacc|].
  constructor; [apply (HP fr)|constructor].
Qed.

(** X11.  The clean-up of function names keeps what follows the last "/":
    the result has no "/", is a suffix of the name, and is the name itself
    when that has no "/".  No function name of a stack trace contains "/". *)
Theorem cleaned_function_names_have_no_path (funcName : string) :
  Contains (strip_package_path funcName) "/" = false
  /\ (exists pre, funcName = pre +:+ strip_package_path funcName)
  /\ (Contains funcName "/" = false -> strip_package_path funcName = funcName)
  /\ (forall e skip stack,
        Forall (fun f => Contains (StackFrame.Function f) "/" = false)
          (buildStackTrace e skip stack)).
Proof.
  destruct (strip_package_path_keeps_the_tail funcName) as (Hfree & Htail & Hsame).
  split; [exact Hfree|]. split; [exact Htail|]. split; [exact Hsame|].
  intros e skip stack. unfold buildStackTrace.
  apply trace_loop_keeps; [|constructor].
  intros fr. unfold frame_of. cbn [StackFrame.Function].
  destruct (frame_func fr) as [name|]; [|reflexivity].
  apply strip_package_path_keeps_the_tail.
Qed.

Section StackShape.
Context `{Unicode}.

Lemma classify_caller_shape lower :
  classify_caller lower ∅ = ∅
  \/ exists op, op ∈ operations /\ classify_caller lower ∅ = {[ "operation_type" := op ]}.
Proof.
  unfold classify_caller, operations.
  repeat lazymatch goal with
         | |- context [if ?c then _ else _] =>
             destruct c;
             [right; eexists; split; [|apply insert_empty]; set_solver|]
         end.
  by left.
Qed.

Lemma stack_scan_result stack i turns :
  0 <= i ->
  stack_scan stack i turns ∅ = ∅
  \/ exists j fr name,
       i <= j < i + Z.of_nat turns /\ stack !! Z.to_nat j = Some fr /\
       frame_func fr = Some name /\
       stack_scan stack i turns ∅ = annotations_of fr name.
Proof.
  revert i. induction turns as [|turns IH]; intros i Hi; [by left|].
  cbn [stack_scan]. unfold runtime_Caller. replace (i <? 0) with false by lia.
  destruct (stack !! Z.to_nat i) as [fr|] eqn:Hfr; [|by left].
  destruct (frame_func fr) as [name|] eqn:Hname.
  - right. exists i, fr, name. repeat split; try lia; assumption.
  - destruct (IH (i + 1) ltac:(lia)) as [Hnone|(j & fr' & name & Hj & Hfr' & Hname' & Heq)];
      [by left|].
    right. exists j, fr', name. repeat split; try lia; assumption.
Qed.

End StackShape.

(** X7.  [detectContextFromStack] gives nothing on a stack of at most
    three frames; otherwise its result is empty or has both "caller_function"
    and "caller_location", it has no key besides these and "operation_type",
    whose value is one of read, write, open, process, handle, and when frame
    3 has a known function that frame alone decides. *)
Theorem stack_inference_shape `{Unicode} (stack : list RawFrame) :
  let r := detectContextFromStack stack in
  ((length stack <= 3)%nat -> r = ∅)
  /\ (r = ∅ \/ exists f loc, r !! "caller_function" = Some (VString f) /\
                             r !! "caller_location" = Some (VString loc))
  /\ (forall k, is_Some (r !! k) -> k ∈ caller_keys)
  /\ (forall v, r !! "operation_type" = Some v -> v ∈ operations)
  /\ (forall fr name, stack !! 3%nat = Some fr -> frame_func fr = Some name ->
        r = annotations_of fr name).
Proof.
  intros r. subst r. unfold detectContextFromStack.
  split; [|split; [|split; [|split]]].
  - intros Hlen. cbn [stack_scan]. unfold runtime_Caller. cbn.
    by rewrite lookup_ge_None_2 by lia.
  - destruct (stack_scan_result stack 3 5 ltac:(lia))
      as [->|(j & fr & name & _ & _ & _ & ->)]; [by left|right].
    unfold annotations_of. do 2 eexists. split.
    + rewrite lookup_insert_ne by done. apply lookup_insert_eq.
    + apply lookup_insert_eq.
  - intros k Hk.
    destruct (stack_scan_result stack 3 5 ltac:(lia))
      as [Heq|(j & fr & name & _ & _ & _ & Heq)]; rewrite Heq in Hk.
    + rewrite lookup_empty in Hk. by destruct Hk.
    + unfold annotations_of in Hk. apply elem_of_dom in Hk.
      rewrite !dom_insert_L in Hk. unfold caller_keys.
      destruct (classify_caller_shape (ToLower (strip_package_path name)))
        as [Hc|(op & _ & Hc)]; rewrite Hc in Hk;
        rewrite ?dom_empty_L, ?dom_singleton_L in Hk;
        rewrite !elem_of_union, !elem_of_singleton, ?elem_of_empty in Hk;
        rewrite !elem_of_cons; tauto.
  - intros v Hv.
    destruct (stack_scan_result stack 3 5 ltac:(lia))
      as [Heq|(j & fr & name & _ & _ & _ & Heq)]; rewrite Heq in Hv.
    + by rewrite lookup_empty in Hv.
    + unfold annotations_of in Hv. rewrite !lookup_insert_ne in Hv by done.
      destruct (classify_caller_shape (ToLower (strip_package_path name)))
        as [Hc|(op & Hop & Hc)]; rewrite Hc in Hv.
      * by rewrite lookup_empty in Hv.
      * rewrite lookup_singleton_eq in Hv. by injection Hv as <-.
  - intros fr name Hfr Hname. cbn [stack_scan]. unfold runtime_Caller.
    change (3 <? 0) with false. change (Z.to_nat 3) with 3%nat.
    cbv iota. rewrite Hfr, Hname. reflexivity.
Qed.

End NamesAndStacks.

(** ** What the builders see of the stack *)

Section CallSites.
Local Open Scope Z_scope.

(** X8.  Inside [Err], frame 3 of [detectContextFromStack] is [Err]'s own
    frame (frames 0 to 2 being [detectContextFromStack], [buildSmartContext]
    and [buildSmartErrorInfo]): the stack-inferred annotations describe the
    entry point, not its caller, and that is what "caller_function" holds
    unless the explicit or the source-inferred context sets the key. *)
Theorem err_infers_from_its_own_frame `{Unicode} (env : Env) (Catch : ErrorCatcher)
    (err : error) (context : list value) (f0 : RawFrame) (rest : list RawFrame)
    (name : string) :
  fair_range env -> frame_func f0 = Some name ->
  EnableStackAnalysis (getConfig Catch) = true ->
  let stack := enter env "buildSmartErrorInfo" (f0 :: rest) in
  let info := buildSmartErrorInfo env Catch err context stack in
  let explicit := parseProvidedContext env ∅ context in
  let sourceCtx :=
    if EnableSmartAnalysis (getConfig Catch)
    then source_hints env (ErrorInfo.File info) (ErrorInfo.Line info) else ∅ in
  ErrorInfo.Context info = explicit ∪ sourceCtx ∪ annotations_of f0 name
  /\ annotations_of f0 name !! "caller_function" = Some (VString (strip_package_path name))
  /\ (explicit !! "caller_function" = None -> sourceCtx !! "caller_function" = None ->
      ErrorInfo.Context info !! "caller_function" =
      Some (VString (strip_package_path name))).
Proof.
  intros Hfair Hname Hstack stack info explicit sourceCtx.
  assert (annotations_of f0 name !! "caller_function" =
          Some (VString (strip_package_path name))) as Hfn.
  { unfold annotations_of. rewrite lookup_insert_ne by done. apply lookup_insert_eq. }
  assert (ErrorInfo.Context info = explicit ∪ sourceCtx ∪ annotations_of f0 name) as Hctx.
  { subst info sourceCtx. unfold buildSmartErrorInfo.
    destruct (caller_site stack 2) as [[file line] funcName].
    cbn [ErrorInfo.Context ErrorInfo.File ErrorInfo.Line].
    unfold buildSmartContext. fold explicit. rewrite Hstack.
    unfold detectContextFromStack, detectContextFromSource.
    assert (stack_scan
              (enter env "detectContextFromStack" (enter env "buildSmartContext" stack))
              3 5 ∅ = annotations_of f0 name) as ->.
    { cbn [stack_scan]. unfold runtime_Caller, enter, stack, enter.
      change (3 <? 0) with false. change (Z.to_nat 3) with 3%nat. cbn [lookup list_lookup].
      rewrite Hname. reflexivity. }
    destruct (EnableSmartAnalysis (getConfig Catch));
      rewrite !(fill_absent_visits _ _ _ (Hfair _));
      by rewrite ?(right_id_L ∅ (∪)). }
  split; [exact Hctx|]. split; [exact Hfn|].
  intros He Hs. rewrite Hctx, !lookup_union, He, Hs, Hfn. reflexivity.
Qed.

(** X9.  Both builders report the call site of the entry point: file, line
    and function are those of the frame above the entry point's own, and
    "unknown", 0 and the empty name when there is no such frame. *)
Theorem reports_point_at_the_caller `{Unicode} (env : Env) (e : ErrorCatcher)
    (err : error) (context : list value) (f0 : RawFrame) (callers : list RawFrame) :
  let via_set := buildErrorInfo env e err 1 (enter env "buildErrorInfo" (f0 :: callers)) in
  let via_err :=
    buildSmartErrorInfo env e err context (enter env "buildSmartErrorInfo" (f0 :: callers)) in
  (forall f1 rest, callers = f1 :: rest ->
     (ErrorInfo.File via_set, ErrorInfo.Line via_set) = (frame_file f1, frame_line f1)
     /\ (ErrorInfo.File via_err, ErrorInfo.Line via_err) = (frame_file f1, frame_line f1)
     /\ ErrorInfo.Function via_set = StackFrame.Function (frame_of f1)
     /\ ErrorInfo.Function via_err = StackFrame.Function (frame_of f1))
  /\ (callers = [] ->
      (ErrorInfo.File via_set, ErrorInfo.Line via_set, ErrorInfo.Function via_set) =
        ("unknown", 0, "")
      /\ (ErrorInfo.File via_err, ErrorInfo.Line via_err, ErrorInfo.Function via_err) =
        ("unknown", 0, "")).
Proof.
  intros via_set via_err. subst via_set via_err. split.
  - intros f1 rest ->. unfold buildErrorInfo, buildSmartErrorInfo, caller_site, enter.
    change (add 1 1) with 2. unfold runtime_Caller.
    change (2 <? 0) with false. change (Z.to_nat 2) with 2%nat. cbn [lookup list_lookup].
    repeat split.
  - intros ->. unfold buildErrorInfo, buildSmartErrorInfo, caller_site, enter.
    change (add 1 1) with 2. unfold runtime_Caller.
    change (2 <? 0) with false. change (Z.to_nat 2) with 2%nat. cbn [lookup list_lookup].
    split; reflexivity.
Qed.

(** X10.  With the stack trace on and a depth [d] of at least 1, as long as
    the bound [skip + d] of the loop does not pass the largest [int] (that
    is [d <= 2^63 - 3] for [Set], whose skip is 2, and [d <= 2^63 - 2] for
    [Err], whose skip is 1), the trace built for [Set] holds the first
    [d - 1] frames from the caller on, the one built for [Err] the first
    [d - 1] frames from [Err]'s own frame on; a shorter stack is taken
    whole.  For a greater depth the bound wraps around below the first
    index and the trace is empty. *)
Theorem where_the_backtrace_starts `{Unicode} (env : Env) (e : ErrorCatcher)
    (err : error) (context : list value) (f0 : RawFrame) (callers : list RawFrame) :
  let d := MaxStackDepth (getConfig e) in
  let via_set :=
    ErrorInfo.Stack
      (buildErrorInfo env e err 1 (enter env "buildErrorInfo" (f0 :: callers))) in
  let via_err :=
    ErrorInfo.Stack
      (buildSmartErrorInfo env e err context
         (enter env "buildSmartErrorInfo" (f0 :: callers))) in
  ShowStackTrace (getConfig e) = true -> 1 <= d -> d <= int_max ->
  (d <= int_max - 2 -> via_set = frame_of <$> take (Z.to_nat (d - 1)) callers)
  /\ (int_max - 2 < d -> via_set = [])
  /\ (d <= int_max - 1 ->
      via_err = frame_of <$> take (Z.to_nat (d - 1)) (f0 :: callers))
  /\ (d = int_max -> via_err = []).
Proof.
  intros d via_set via_err Hshow Hd Hint.
  assert (forall skip, 0 <= skip <= 2 -> skip + d <= int_max -> forall stack,
            buildStackTrace e skip stack =
            frame_of <$> take (Z.to_nat (d - 1)) (drop (Z.to_nat (skip + 1)) stack))
    as Htrace.
  { intros skip Hskip Hmax stack. unfold buildStackTrace. fold d. unfold add.
    rewrite !wrap_id by (unfold is_int, int_min, int_max in *; lia).
    rewrite trace_loop_frames by (unfold is_int, int_min, int_max in *; lia).
    replace (skip + d - (skip + 1)) with (d - 1) by lia. reflexivity. }
  assert (forall skip, 0 <= skip <= 2 -> int_max < skip + d -> forall stack,
            buildStackTrace e skip stack = []) as Hwrapped.
  { intros skip Hskip Hmax stack. unfold buildStackTrace. fold d.
    cbn [trace_loop].
    assert (add skip 1 = skip + 1) as ->
      by (unfold add; apply wrap_id; unfold is_int, int_min, int_max; lia).
    assert (add skip d < 0) as Hbound.
    { unfold add, wrap. unfold int_max in *.
      replace ((skip + d + 2 ^ 63) mod 2 ^ 64) with (skip + d + 2 ^ 63 - 2 ^ 64); [lia|].
      first [apply Z.mod_unique with (q := 1); lia
            |symmetry; apply Z.mod_unique with (q := 1); lia]. }
    destruct (Z.ltb_spec (skip + 1) (add skip d)); [lia|reflexivity]. }
  assert (via_set = buildStackTrace e 2 (enter env "buildStackTrace"
            (enter env "buildErrorInfo" (f0 :: callers)))) as Hset.
  { subst via_set. unfold buildErrorInfo.
    destruct (caller_site _ _) as [[file line] funcName].
    cbn [ErrorInfo.Stack]. rewrite Hshow. reflexivity. }
  assert (via_err = buildStackTrace e 1 (enter env "buildStackTrace"
            (enter env "buildSmartErrorInfo" (f0 :: callers)))) as Herr.
  { subst via_err. unfold buildSmartErrorInfo.
    destruct (caller_site _ _) as [[file line] funcName].
    cbn [ErrorInfo.Stack]. rewrite Hshow. reflexivity. }
  rewrite Hset, Herr. repeat split.
  - intros Hmax. rewrite Htrace by lia. reflexivity.
  - intros Hmax. apply Hwrapped; lia.
  - intros Hmax. rewrite Htrace by lia. reflexivity.
  - intros Hmax. apply Hwrapped; lia.
Qed.

(** [Err] called from store.Load under the default configuration: the
    inferred "caller_function" is [Err] itself. *)
Lemma err_infers_from_its_own_frame_witness :
  ErrorInfo.Context
    (@buildSmartErrorInfo ascii_tables Scenarios.env_quiet {| Config := DefaultConfig |}
       (mkError "boom") [] (enter Scenarios.env_quiet "buildSmartErrorInfo" (inside "Err")))
    !! "caller_function" = Some (VString "catch.Err").
Proof.
  pose proof (@err_infers_from_its_own_frame ascii_tables Scenarios.env_quiet
                {| Config := DefaultConfig |} (mkError "boom") []
                (Scenarios.engine_at "Err")
                [Scenarios.user_frame "store.Load" 40; Scenarios.user_frame "api.Handle" 77;
                 Scenarios.user_frame "main.serve" 18; Scenarios.user_frame "main.main" 9]
                "github.com/00msjr/catch.Err"
                (range_is_fair_in_scenarios _ _) eq_refl eq_refl) as P.
  cbv zeta in P. destruct P as (_ & _ & P).
  exact (P eq_refl eq_refl).
Defined.

(** Depth three: [Set] shows store.Load and api.Handle, [Err] shows itself
    and store.Load. *)
Lemma where_the_backtrace_starts_witness :
  ErrorInfo.Stack
    (@buildErrorInfo ascii_tables Scenarios.env_quiet Scenarios.depth_three (mkError "boom") 1
       (enter Scenarios.env_quiet "buildErrorInfo" (inside "Set"))) =
    [StackFrame.make "/home/dev/app/main.go" 40 "store.Load";
     StackFrame.make "/home/dev/app/main.go" 77 "api.Handle"]
  /\ ErrorInfo.Stack
       (@buildSmartErrorInfo ascii_tables Scenarios.env_quiet Scenarios.depth_three
          (mkError "boom") []
          (enter Scenarios.env_quiet "buildSmartErrorInfo" (inside "Err"))) =
    [StackFrame.make "/go/src/catch/catch.go" 1 "catch.Err";
     StackFrame.make "/home/dev/app/main.go" 40 "store.Load"].
Proof.
  split.
  - destruct (@where_the_backtrace_starts ascii_tables Scenarios.env_quiet
                Scenarios.depth_three (mkError "boom") [] (Scenarios.engine_at "Set")
                [Scenarios.user_frame "store.Load" 40; Scenarios.user_frame "api.Handle" 77;
                 Scenarios.user_frame "main.serve" 18; Scenarios.user_frame "main.main" 9])
      as (Hset & _).
    + reflexivity.
    + vm_compute. discriminate.
    + vm_compute. discriminate.
    + apply Hset. vm_compute. discriminate.
  - destruct (@where_the_backtrace_starts ascii_tables Scenarios.env_quiet
                Scenarios.depth_three (mkError "boom") [] (Scenarios.engine_at "Err")
                [Scenarios.user_frame "store.Load" 40; Scenarios.user_frame "api.Handle" 77;
                 Scenarios.user_frame "main.serve" 18; Scenarios.user_frame "main.main" 9])
      as (_ & _ & Herr & _).
    + reflexivity.
    + vm_compute. discriminate.
    + vm_compute. discriminate.
    + apply Herr. vm_compute. discriminate.
Defined.

End CallSites.

(** ** Dispatch *)

Lemma append_length (a b : string) :
  String.length (a +:+ b) = (String.length a + String.length b)%nat.
Proof. induction a as [|c a IH]; [reflexivity|]. rewrite append_cons. simpl. by rewrite IH. Qed.

Lemma render_not_empty config info order :
  (0 < String.length (render config info order))%nat.
Proof.
  unfold render, header_block. rewrite append_length.
  destruct (UseColors config); rewrite append_length; simpl; lia.
Qed.

(** X12.  [handleError] writes the whole message to the console, then the
    stripped copy to the log file when one is configured and can be opened,
    and only then exits (status 1) or returns, as [ExitOnError] says: the
    world it exits in already holds the report on both sinks. *)
Theorem report_reaches_the_sinks_before_exit (env : Env) (e : ErrorCatcher)
    (info : ErrorInfo.t) (w : World) :
  let config := getConfig e in
  let message := render config info (range env (ErrorInfo.Context info)) in
  let after := world_of (handleError env e info w) in
  handleError env e info w =
    (if ExitOnError config then Exited after 1 else Returned after tt)
  /\ stderr after = stderr w +:+ message
  /\ stderr after <> stderr w
  /\ (is_empty (LogToFile config) = true -> files after = files w)
  /\ (is_empty (LogToFile config) = false -> locked w (LogToFile config) = true ->
      files after = files w)
  /\ (is_empty (LogToFile config) = false -> locked w (LogToFile config) = false ->
      files after =
      <[LogToFile config :=
          default "" (files w !! LogToFile config) +:+ stripANSI message]> (files w)).
Proof.
  intros config message after. subst after. unfold handleError. fold config. fold message.
  assert (stderr w +:+ message <> stderr w) as Hgrows.
  { intros Heq. apply (f_equal String.length) in Heq. rewrite append_length in Heq.
    pose proof (render_not_empty config info (range env (ErrorInfo.Context info))).
    fold message in H. lia. }
  destruct (is_empty (LogToFile config)) eqn:Hlog; unfold logToFile; cbn [locked files stderr].
  - destruct (ExitOnError config); cbn [world_of stderr files];
      (split; [reflexivity|]); (split; [reflexivity|]); (split; [exact Hgrows|]);
      (split; [reflexivity|]); split; discriminate.
  - destruct (locked w (LogToFile config)) eqn:Hlocked;
      destruct (ExitOnError config); cbn [world_of stderr files];
      (split; [reflexivity|]); (split; [reflexivity|]); (split; [exact Hgrows|]);
      (split; [discriminate|]);
      split; first [reflexivity | discriminate | intros; reflexivity].
Qed.

(** X13.  [logToFile] only ever appends: two calls leave the previous
    content followed by the two stripped messages in order, a file that
    cannot be opened leaves the world as it is, no other file and nothing on
    the console changes. *)
Theorem log_file_is_append_only (filename first second : string) (w : World) :
  (locked w filename = true -> logToFile filename first w = w)
  /\ (locked w filename = false ->
      files (logToFile filename second (logToFile filename first w)) !! filename =
      Some (default "" (files w !! filename) +:+ stripANSI first +:+ stripANSI second))
  /\ (forall other, other <> filename ->
        files (logToFile filename first w) !! other = files w !! other)
  /\ stderr (logToFile filename first w) = stderr w.
Proof.
  unfold logToFile. split; [|split; [|split]].
  - intros ->. reflexivity.
  - intros Hopen. rewrite Hopen. cbn [locked files]. rewrite Hopen. cbn [files].
    rewrite !lookup_insert_eq. cbn [default id]. by rewrite append_assoc.
  - intros other Hne. destruct (locked w filename); [reflexivity|].
    cbn [files]. by rewrite lookup_insert_ne.
  - by destruct (locked w filename).
Qed.

Lemma replace_from_shrinks old skip s :
  (String.length (replace_from old "" skip s) <= String.length s)%nat.
Proof.
  revert skip. induction s as [|c s IH]; intros skip; [reflexivity|].
  cbn [replace_from]. destruct skip as [|k].
  - destruct (String.prefix old (String c s)).
    + change ("" +:+ ?x) with x. cbn [String.length].
      specialize (IH (String.length old - 1)%nat). lia.
    + cbn [String.length]. specialize (IH 0%nat). lia.
  - cbn [String.length]. specialize (IH k). lia.
Qed.

Lemma ReplaceAll_shrinks s old :
  (String.length (ReplaceAll s old "") <= String.length s)%nat.
Proof. unfold ReplaceAll. destruct (is_empty old); [lia|apply replace_from_shrinks]. Qed.

Lemma strip_fold_shrinks todo s :
  (String.length (foldl (fun result escape => ReplaceAll result escape "") s todo)
   <= String.length s)%nat.
Proof.
  revert s. induction todo as [|e todo IH]; intros s; [reflexivity|].
  cbn [foldl]. etrans; [apply IH|apply ReplaceAll_shrinks].
Qed.

(** X14.  [stripANSI] never makes a text longer, leaves a text without
    escape characters as it is, and takes any text obtained by inserting
    colour codes into escape-free text back to that text, on which it is
    idempotent. *)
Theorem stripANSI_only_removes (text : string) :
  (String.length (stripANSI text) <= String.length text)%nat
  /\ (esc_free text = true -> stripANSI text = text)
  /\ (forall plain, styled is_escape text plain ->
        stripANSI text = plain /\ stripANSI (stripANSI text) = stripANSI text).
Proof.
  split; [apply strip_fold_shrinks|]. split.
  - intros Hfree. by apply stripANSI_styled, styled_plain.
  - intros plain Hst. rewrite (stripANSI_styled _ _ Hst). split; [reflexivity|].
    apply stripANSI_styled, styled_plain. by apply (styled_plain_side _ _ _ Hst).
Qed.

(** ** Source window, whatever the bounds *)

Section GenuineLines.
Local Open Scope Z_scope.

Lemma scan_loop_sublist center lo hi texts n acc :
  0 <= n -> n + Z.of_nat (length texts) <= int_max ->
  exists sub,
    sub `sublist_of` zip (Z.of_nat <$> seq (S (Z.to_nat n)) (length texts)) texts /\
    scan_loop center lo hi texts n acc = acc ++ (line_of center <$> sub).
Proof.
  revert n acc. induction texts as [|t texts IH]; intros n acc Hn Hlen.
  - exists []. split; [constructor|]. simpl. by rewrite app_nil_r.
  - cbn [scan_loop]. unfold add. rewrite wrap_id.
    2:{ unfold is_int, int_min, int_max in *. cbn [length] in Hlen. lia. }
    cbn [length seq fmap list_fmap zip zip_with].
    replace (Z.of_nat (S (Z.to_nat n))) with (n + 1) by lia.
    cbn [length] in Hlen.
    destruct (hi <? n + 1).
    + destruct ((lo <=? n + 1) && (n + 1 <=? hi)).
      * exists [(n + 1, t)]. split; [apply sublist_skip, sublist_nil_l|reflexivity].
      * exists []. split; [apply sublist_nil_l|]. simpl. by rewrite app_nil_r.
    + destruct ((lo <=? n + 1) && (n + 1 <=? hi)).
      * destruct (IH (n + 1) (acc ++ [SourceLine.make (n + 1) t (n + 1 =? center)])
                    ltac:(lia) ltac:(lia)) as (sub & Hsub & ->).
        exists ((n + 1, t) :: sub). split.
        -- apply sublist_skip.
           by replace (S (S (Z.to_nat n))) with (S (Z.to_nat (n + 1))) by lia.
        -- by rewrite <- app_assoc.
      * destruct (IH (n + 1) acc ltac:(lia) ltac:(lia)) as (sub & Hsub & ->).
        exists sub. split; [|reflexivity]. apply sublist_cons.
        by replace (S (S (Z.to_nat n))) with (S (Z.to_nat (n + 1))) by lia.
Qed.

Lemma sublist_keeps_Forall {A} (P : A -> Prop) (l1 l2 : list A) :
  l1 `sublist_of` l2 -> Forall P l2 -> Forall P l1.
Proof.
  induction 1 as [|x l1 l2 _ IH|x l1 l2 _ IH]; intros Hall.
  - constructor.
  - apply Forall_cons in Hall as [Hx Hall]. constructor; auto.
  - apply Forall_cons in Hall as [_ Hall]. auto.
Qed.

Lemma sublist_sorted {A} (R : relation A) (l1 l2 : list A) :
  l1 `sublist_of` l2 -> StronglySorted R l2 -> StronglySorted R l1.
Proof.
  induction 1 as [|x l1 l2 Hsub IH|x l1 l2 _ IH]; intros Hs.
  - constructor.
  - apply StronglySorted_cons in Hs as [Hx Hs]. apply StronglySorted_cons.
    split; [by eapply sublist_keeps_Forall|auto].
  - apply StronglySorted_cons in Hs as [_ Hs]. auto.
Qed.

Lemma numbered_from_genuine (texts all : list string) (k : nat) :
  drop k all = texts ->
  Forall (fun entry : Z * string =>
            1 <= entry.1 /\ all !! Z.to_nat (entry.1 - 1) = Some entry.2)
    (zip (Z.of_nat <$> seq (S k) (length texts)) texts).
Proof.
  revert k. induction texts as [|t texts IH]; intros k Hdrop; [constructor|].
  assert (all !! k = Some t) as Hk
    by (rewrite <- (Nat.add_0_r k), <- lookup_drop, Hdrop; reflexivity).
  rewrite (drop_S _ _ _ Hk) in Hdrop. injection Hdrop as Hdrop.
  cbn [length seq fmap list_fmap zip zip_with]. constructor.
  - cbn [fst snd]. split; [lia|].
    by replace (Z.to_nat (Z.of_nat (S k) - 1)) with k by lia.
  - by apply IH.
Qed.

Lemma numbered_sorted (texts : list string) (k : nat) :
  StronglySorted (fun a b : Z * string => a.1 < b.1)
    (zip (Z.of_nat <$> seq k (length texts)) texts).
Proof.
  revert k. induction texts as [|t texts IH]; intros k; [constructor|].
  cbn [length seq fmap list_fmap zip zip_with]. apply StronglySorted_cons.
  split; [|apply IH].
  assert (forall j, (k < j)%nat ->
            Forall (fun b : Z * string => Z.of_nat k < b.1)
              (zip (Z.of_nat <$> seq j (length texts)) texts)) as Hall.
  { clear IH. induction texts as [|t' texts IH]; intros j Hj; [constructor|].
    cbn [length seq fmap list_fmap zip zip_with]. constructor; [cbn; lia|].
    apply IH. lia. }
  apply Hall. lia.
Qed.

(** X15.  Whatever the centre line and the radius (also when the window
    bounds wrap around), what [loadSourceContext] returns is a subsequence of
    the numbered lines of the file: every line carries its own number and
    text, the flag is set exactly on the lines numbered [centerLine], the
    numbers are strictly increasing, and no more lines come back than the
    file has. *)
Theorem returned_lines_are_genuine (env : Env) (filename : string)
    (texts : list string) (centerLine radius : Z) :
  sources env filename = Some texts -> Z.of_nat (length texts) <= int_max ->
  let result := loadSourceContext env filename centerLine radius in
  (exists kept, kept `sublist_of` numbered texts /\ result = line_of centerLine <$> kept)
  /\ Forall (fun l => 1 <= SourceLine.Number l
                      /\ texts !! Z.to_nat (SourceLine.Number l - 1) =
                         Some (SourceLine.Content l)
                      /\ SourceLine.IsError l = (SourceLine.Number l =? centerLine))
       result
  /\ StronglySorted (fun a b => SourceLine.Number a < SourceLine.Number b) result
  /\ (length result <= length texts)%nat.
Proof.
  intros Hsrc Hlen result.
  assert (exists kept, kept `sublist_of` numbered texts /\ result = line_of centerLine <$> kept)
    as (kept & Hsub & Hresult).
  { subst result. unfold loadSourceContext. rewrite Hsrc.
    destruct (scan_loop_sublist centerLine
                (if sub centerLine radius <? 1 then 1 else sub centerLine radius)
                (add centerLine radius) texts 0 [] ltac:(lia) ltac:(lia))
      as (sub' & Hsub' & ->).
    exists sub'. split; [exact Hsub'|reflexivity]. }
  split; [by exists kept|]. rewrite Hresult. split; [|split].
  - apply Forall_fmap.
    eapply Forall_impl; [apply (sublist_keeps_Forall _ _ _ Hsub), (numbered_from_genuine texts texts 0 eq_refl)|].
    intros [n t] [Hn Ht]. cbn. auto.
  - pose proof (sublist_sorted _ _ _ Hsub (numbered_sorted texts 1)) as Hsorted.
    clear -Hsorted. induction Hsorted as [|a l Hs IH Ha]; [constructor|].
    cbn [fmap list_fmap]. constructor; [exact IH|].
    apply Forall_fmap. eapply Forall_impl; [exact Ha|]. intros b Hb. exact Hb.
  - rewrite length_fmap. etrans; [apply (sublist_length _ _ Hsub)|].
    unfold numbered. rewrite length_zip_with, length_fmap, length_seq. lia.
Qed.

(** A radius that wraps the upper bound: what comes back is still no more
    than the file. *)
Lemma returned_lines_are_genuine_witness :
  (length (loadSourceContext Scenarios.env_hundred "main.go" 99 9223372036854775807) <=
   length Scenarios.hundred_lines)%nat.
Proof.
  destruct (returned_lines_are_genuine Scenarios.env_hundred "main.go"
              Scenarios.hundred_lines 99 9223372036854775807 eq_refl)
    as (_ & _ & _ & Hlen).
  - vm_compute. discriminate.
  - exact Hlen.
Defined.

End GenuineLines.

(** ** The other entry points *)

Section OtherEntryPoints.
Local Open Scope Z_scope.

Lemma handleError_outcome env e info w :
  exists w', handleError env e info w =
             if ExitOnError (getConfig e) then Exited w' 1 else Returned w' tt.
Proof. unfold handleError. destruct (ExitOnError (getConfig e)); eexists; reflexivity. Qed.

(** X16.  [Check] and [ErrCheck] answer true for a nil error without
    touching the world; for a non-nil error they answer false only when
    exit-on-error is off, and exit with status 1 otherwise; whenever they
    return, the answer says whether the error was nil. *)
Theorem check_answers_only_when_it_returns `{Unicode} (env : Env) (Catch : ErrorCatcher)
    (err : option error) (stack : list RawFrame) (w : World) :
  (err = None ->
     Check env Catch err stack w = Returned w true /\
     ErrCheck env Catch err stack w = Returned w true)
  /\ (err <> None -> ExitOnError (getConfig Catch) = false ->
      (exists w', Check env Catch err stack w = Returned w' false) /\
      (exists w', ErrCheck env Catch err stack w = Returned w' false))
  /\ (err <> None -> ExitOnError (getConfig Catch) = true ->
      (exists w', Check env Catch err stack w = Exited w' 1) /\
      (exists w', ErrCheck env Catch err stack w = Exited w' 1))
  /\ (forall w' b, Check env Catch err stack w = Returned w' b ->
        b = bool_decide (err = None))
  /\ (forall w' b, ErrCheck env Catch err stack w = Returned w' b ->
        b = bool_decide (err = None)).
Proof.
  destruct err as [failure|].
  - unfold Check, ErrCheck, Err, handleError, bind. cbv zeta.
    split; [discriminate|]. split; [|split; [|split]].
    + intros _ ->. split; eexists; reflexivity.
    + intros _ ->. split; eexists; reflexivity.
    + intros w' b. destruct (ExitOnError (getConfig Catch)); [discriminate|].
      by intros [= _ <-].
    + intros w' b. destruct (ExitOnError (getConfig Catch)); [discriminate|].
      by intros [= _ <-].
  - split; [split; reflexivity|]. split; [congruence|]. split; [congruence|].
    split; intros w' b [= _ <-]; reflexivity.
Qed.

(** X17.  [ErrMust] hands back its value for a nil error; for a non-nil
    error it hands back the very value that came with the failure when
    exit-on-error is off, and exits with status 1 when it is on. *)
Theorem ErrMust_hands_back_the_value_of_a_failure `{Unicode} {T} (env : Env)
    (Catch : ErrorCatcher) (val : T) (err : option error)
    (stack : list RawFrame) (w : World) :
  (err = None -> ErrMust env Catch val err stack w = Returned w val)
  /\ (err <> None -> ExitOnError (getConfig Catch) = false ->
      exists w', ErrMust env Catch val err stack w = Returned w' val)
  /\ (err <> None -> ExitOnError (getConfig Catch) = true ->
      exists w', ErrMust env Catch val err stack w = Exited w' 1).
Proof.
  destruct err as [failure|].
  - unfold ErrMust, Err, handleError, bind. cbv zeta.
    split; [discriminate|]. split; intros _ ->; eexists; reflexivity.
  - split; [reflexivity|]. split; congruence.
Qed.

(** X18.  [Must] hands back its value for a nil error and panics for a
    non-nil one under every configuration; the panic message names the call
    site of [Must] (file, line and, when known, function of the frame above
    its own) and ends with the error's text. *)
Theorem Must_panics_whatever_the_configuration `{Unicode} {T} (env : Env)
    (Catch Other : ErrorCatcher) (val : T) (err : option error)
    (f0 : RawFrame) (callers : list RawFrame) :
  (err = None -> Must env Catch val err (f0 :: callers) = MustValue val)
  /\ Must env Catch val err (f0 :: callers) = Must env Other val err (f0 :: callers)
  /\ (forall failure f1 rest, err = Some failure -> callers = f1 :: rest ->
      Must env Catch val err (f0 :: callers) =
      MustPanic (("Must failed in " +:+ Base (frame_file f1) +:+ ":" +:+
                  itoa (frame_line f1)) +:+
                 (if is_empty (StackFrame.Function (frame_of f1)) then ""
                  else " (" +:+ StackFrame.Function (frame_of f1) +:+ ")") +:+
                 (": " +:+ Error failure))).
Proof.
  split; [by intros ->|]. split.
  - destruct err as [failure|]; [|reflexivity].
    unfold Must, buildErrorInfo.
    destruct (caller_site _ _) as [[file line] funcName]. reflexivity.
  - intros failure f1 rest -> ->. reflexivity.
Qed.

(** X19.  The deferred helpers: [Try]'s closure does nothing for a nil
    pointer or a nil error; [Recover]'s closure does nothing when there is no
    panic; given a pointer it stores the error made of the panic, overwriting
    what the variable held, and reports nothing under any configuration; a
    string panic becomes the error "panic: " followed by the string; without
    a pointer the panic is reported, as is a non-nil error by [Try]. *)
Theorem deferred_helpers `{Unicode} (env : Env) (Catch : ErrorCatcher)
    (stack : list RawFrame) (w : World) :
  Try env Catch None stack w = Returned w tt
  /\ Try env Catch (Some None) stack w = Returned w tt
  /\ (forall errp, Recover env Catch None errp stack w = Returned w errp)
  /\ (forall r slot,
        Recover env Catch (Some r) (Some slot) stack w =
        Returned w (Some (Some (panic_error r))))
  /\ (forall s, Error (panic_error (PanicString s)) = "panic: " +:+ s)
  /\ (forall r failure,
        (exists w', Recover env Catch (Some r) None stack w =
                    if ExitOnError (getConfig Catch) then Exited w' 1
                    else Returned w' None)
        /\ (exists w', Try env Catch (Some (Some failure)) stack w =
                    if ExitOnError (getConfig Catch) then Exited w' 1
                    else Returned w' tt)).
Proof.
  repeat split; try reflexivity.
  - unfold Recover, handleError, bind. cbv zeta.
    destruct (ExitOnError (getConfig Catch)); eexists; reflexivity.
  - unfold Try, handleError. cbv zeta.
    destruct (ExitOnError (getConfig Catch)); eexists; reflexivity.
Qed.

(** X20.  [Errf] does nothing for a nil error; otherwise it is [Err] on
    the wrapped error with the format arguments as context, so what it
    returns is the wrapped error [Wrap] would make, not the error it was
    given. *)
Theorem Errf_returns_the_wrapped_error `{Unicode} `{Fmt} (env : Env)
    (Catch : ErrorCatcher) (err : option error) (format : string)
    (args : list value) (stack : list RawFrame) (w : World) :
  (err = None -> Errf env Catch err format args stack w = Returned w None)
  /\ (err <> None ->
      Errf env Catch err format args stack w =
      Err env Catch (Wrap err format args) args (enter env "Err" stack) w)
  /\ (err <> None -> ExitOnError (getConfig Catch) = false ->
      exists w', Errf env Catch err format args stack w =
                 Returned w' (Wrap err format args))
  /\ (forall w' r, Errf env Catch err format args stack w = Returned w' r ->
        r = Wrap err format args).
Proof.
  destruct err as [failure|].
  - split; [discriminate|]. split; [reflexivity|].
    unfold Errf, Wrap, Err, handleError, bind. cbv zeta. split.
    + intros _ ->. eexists. reflexivity.
    + intros w' r. destruct (ExitOnError (getConfig Catch)); [discriminate|].
      by intros [= _ <-].
  - split; [reflexivity|]. split; [congruence|]. split; [congruence|].
    by intros w' r [= _ <-].
Qed.

(** X21.  [abs] is the absolute value of every [int] except the least
    one, which it returns unchanged (negative). *)
Theorem abs_of_the_least_int (x : Z) :
  is_int x ->
  (x <> int_min -> abs x = Z.abs x /\ 0 <= abs x)
  /\ abs int_min = int_min.
Proof.
  intros Hx. split; [|reflexivity].
  intros Hne. unfold abs. destruct (Z.ltb_spec x 0).
  - rewrite wrap_id by (unfold is_int, int_min, int_max in *; lia). lia.
  - lia.
Qed.

(** An ordinary negative line difference. *)
Lemma abs_of_the_least_int_witness : abs (-2) = Z.abs (-2) /\ 0 <= abs (-2).
Proof.
  destruct (abs_of_the_least_int (-2)) as [Habs _].
  - unfold is_int. vm_compute. split; discriminate.
  - apply Habs. discriminate.
Defined.

End OtherEntryPoints.
